(** * Ingress admission webhook: decision engine and patch synthesizer

    A shallow embedding of [webhook.go] (functions [admissionRequired],
    [mutationRequired], [updateAnnotation], [createPatch], [mutate], [serve])
    and of the policy loading done in [main], followed by the properties the
    specification states about them.

    Go features that matter for these properties are modelled explicitly:
    - run-time panics (nil pointer dereference, assignment to an entry of a
      nil map, failed type assertion) are results of type [run];
    - a [map[string]string] is a reference: the maps live in a [heap] and a
      map value is [nil] or a location, so that writes through one reference
      are seen through every alias;
    - the order in which [range] visits the keys of a map is not fixed by the
      language: functions that range over a map take the order as an
      argument of type [rangeOrder];
    - [strings.ToLower] has its ASCII path written out; the Unicode case
      mapping it applies to other strings is the parameter [unicodeLower];
    - the decoders of the libraries ([deserializer.Decode], [json.Unmarshal])
      are not re-implemented: a byte string is represented by what its
      decoder makes of it, an error or the decoded value. What
      [json.Unmarshal] then stores into the policy table is written out;
    - [json.Marshal] yields the document it encodes, a tree of type [json];
    - calls to [glog] are left out, except for the operands they evaluate,
      which can panic. *)

From stdpp Require Import gmap strings list fin_maps.
From Stdlib Require Import Ascii String.

#[local] Set Warnings "-register-all".
#[local] Open Scope string_scope.

(** ** Panics and results *)

Inductive panic : Type :=
  | NilPointerDereference   (* invalid memory address or nil pointer dereference *)
  | AssignmentToNilMap      (* assignment to entry in nil map *)
  | InterfaceConversion.    (* x.(T) where x does not hold a T *)

Inductive run (A : Type) : Type :=
  | Returns (a : A)
  | Panics (p : panic).
Arguments Returns {A} a.
Arguments Panics {A} p.

#[global] Instance run_ret : MRet run := λ A a, Returns a.
#[global] Instance run_bind : MBind run := λ A B f x,
  match x with
  | Returns a => f a
  | Panics p => Panics p
  end.

(** ** JSON values

    The values [encoding/json] stores into an [interface{}] (nil, bool,
    float64, string, []interface{}, map[string]interface{}) and the documents
    [json.Marshal] writes are both trees of this type. A number keeps its
    literal: no function of the webhook looks inside one. An object is a
    finite map, so documents are compared up to the order of their keys. *)

Inductive json : Type :=
  | JNull
  | JBool (b : bool)
  | JNumber (lit : string)
  | JString (s : string)
  | JArray (items : list json)
  | JObject (fields : gmap string json).

(** [x.(string)] *)
Definition assertString (x : json) : run string :=
  match x with
  | JString s => Returns s
  | _ => Panics InterfaceConversion
  end.

(** [x.(map[string]interface{})] where [x] is the result of indexing a map:
    a missing key gives the nil interface, on which the assertion panics. *)
Definition assertMap (x : option json) : run (gmap string json) :=
  match x with
  | Some (JObject m) => Returns m
  | _ => Panics InterfaceConversion
  end.

(** ** The heap of annotation maps *)

Abbreviation loc := positive (only parsing).
Abbreviation heap := (gmap positive (gmap string string)) (only parsing).

(** A value of type [map[string]string]: [None] is the nil map. *)
Abbreviation mapref := (option positive) (only parsing).

(** Contents of the map a reference points to; reading a nil map gives what
    reading an empty map gives. *)
Definition contents (h : heap) (r : mapref) : gmap string string :=
  match r with
  | Some l => default ∅ (h !! l)
  | None => ∅
  end.

(** Code that may write the heap or panic. *)
Definition Go (A : Type) : Type := heap → run (A * heap).

#[global] Instance Go_ret : MRet Go := λ A a h, Returns (a, h).
#[global] Instance Go_bind : MBind Go := λ A B f x h,
  match x h with
  | Returns (a, h') => f a h'
  | Panics p => Panics p
  end.

(** A computation that only reads: it leaves the heap as it is. *)
Definition lift {A} (x : run A) : Go A := λ h,
  match x with
  | Returns a => Returns (a, h)
  | Panics p => Panics p
  end.

(** [make(map[string]string)] filled with [m], as [json.Unmarshal] does for
    an object it decodes into a map field. *)
Definition newMap (m : gmap string string) : Go mapref := λ h,
  let l := fresh (dom h) in Returns (Some l, <[l := m]> h).

(** [r[k] = v] *)
Definition mapAssign (r : mapref) (k v : string) : Go unit := λ h,
  match r with
  | None => Panics AssignmentToNilMap
  | Some l => Returns (tt, <[l := <[k := v]> (contents h r)]> h)
  end.

(** The order in which one [range] statement visits a map: any enumeration
    of its entries. *)
Record rangeOrder : Type := RangeOrder {
  visit :> gmap string json → list (string * json);
  visit_perm : ∀ m, visit m ≡ₚ map_to_list m
}.

Definition canonicalOrder : rangeOrder :=
  RangeOrder map_to_list (λ m, Permutation_refl (map_to_list m)).

Definition reverseOrder : rangeOrder :=
  RangeOrder (λ m, rev (map_to_list m))
             (λ m, Permutation_sym (Permutation_rev (map_to_list m))).

(** ** strings.ToLower *)

(** [unicode.ToLower] mapped over a string that holds a byte >= 0x80. *)
Class Unicode : Type := unicodeLower : string → string.

Definition isUpper (c : ascii) : bool :=
  (65 <=? nat_of_ascii c)%nat && (nat_of_ascii c <=? 90)%nat.

Definition lowerByte (c : ascii) : ascii :=
  if isUpper c then ascii_of_nat (nat_of_ascii c + 32) else c.

Fixpoint isASCII (s : string) : bool :=
  match s with
  | EmptyString => true
  | String c rest => (nat_of_ascii c <? 128)%nat && isASCII rest
  end.

Fixpoint lowerBytes (s : string) : string :=
  match s with
  | EmptyString => EmptyString
  | String c rest => String (lowerByte c) (lowerBytes rest)
  end.

Definition ToLower `{Unicode} (s : string) : string :=
  if isASCII s then lowerBytes s else unicodeLower s.

(** A case mapping for examples: strings outside ASCII are left as they are. *)
Definition asciiOnly : Unicode := λ s, s.

(** ** Kubernetes types (the fields the webhook reads) *)

(** [metav1.ObjectMeta] *)
Record ObjectMeta : Type := {
  Name : string;
  Namespace : string;
  Labels : mapref;
  Annotations : mapref
}.

(** What [json.Unmarshal] decodes from the raw object of a request into a
    [networkingv1beta1.Ingress]: maps are given by their contents, [None]
    when the object has no such field. *)
Record ingressFields : Type := {
  ingressName : string;
  ingressNamespace : string;
  ingressLabels : option (gmap string string);
  ingressAnnotations : option (gmap string string)
}.

(** [runtime.RawExtension]: the bytes are represented by what
    [json.Unmarshal(raw, &ingress)] makes of them. *)
Inductive rawObject : Type :=
  | NotAnIngress (err : string)
  | IngressObject (fields : ingressFields).

(** [v1beta1.AdmissionRequest] *)
Record AdmissionRequest : Type := {
  UID : string;
  Kind : string;          (* req.Kind.Kind *)
  Operation : string;
  Object : rawObject      (* req.Object.Raw *)
}.

Inductive patchType : Type := PatchTypeJSONPatch.

(** [v1beta1.AdmissionResponse]; [Result] holds [Status.Message], [Patch]
    the document whose encoding the bytes are ([None]: no bytes). *)
Record AdmissionResponse : Type := {
  ResponseUID : string;
  Allowed : bool;
  Result : option string;
  Patch : option json;
  PatchType : option patchType
}.

(** [v1beta1.AdmissionReview] *)
Record AdmissionReview : Type := {
  Request : option AdmissionRequest;
  Response : option AdmissionResponse
}.

(** ** webhook.go *)

Definition NamespaceSystem : string := "kube-system".
Definition NamespacePublic : string := "kube-public".

Definition ignoredNamespaces : list string := [NamespaceSystem; NamespacePublic].

Definition admissionWebhookAnnotationValidateKey : string :=
  "admission-webhook-example.citrix.com/validate".
Definition admissionWebhookAnnotationMutateKey : string :=
  "admission-webhook-example.citrix.com/mutate".
Definition admissionWebhookAnnotationStatusKey : string :=
  "admission-webhook-example.citrix.com/status".

Record WebhookServer : Type := {
  defaultAnnotations : list (gmap string json)
}.

Record patchOperation : Type := {
  Op : string;
  Path : string;
  Value : mapref   (* the interface{} always holds a map[string]string *)
}.

(** [metadata.Namespace], [metadata.GetName()], [metadata.GetAnnotations()]:
    all dereference the pointer. *)
Definition deref (metadata : option ObjectMeta) : run ObjectMeta :=
  match metadata with
  | Some md => Returns md
  | None => Panics NilPointerDereference
  end.

Fixpoint admissionRequired (ignoredList : list string)
    (admissionAnnotationKey : string) (metadata : option ObjectMeta) : run bool :=
  match ignoredList with
  | [] => Returns true
  | namespace :: rest =>
      md ← deref metadata;
      if decide (Namespace md = namespace) then Returns false
      else admissionRequired rest admissionAnnotationKey metadata
  end.

(** The loop of [mutationRequired] over the policy table: the value of
    [ingressFound] when the loop ends. *)
Fixpoint ingressFound `{Unicode} (defaultAnnotations : list (gmap string json))
    (name : string) : run bool :=
  match defaultAnnotations with
  | [] => Returns false
  | dflt :: rest =>
      match dflt !! "ingressName" with
      | None => ingressFound rest name
      | Some ingressName =>
          s ← assertString ingressName;
          if decide (ToLower s = ToLower name) then Returns true
          else ingressFound rest name
      end
  end.

Definition mutationRequired `{Unicode} (h : heap) (ignoredList : list string)
    (defaultAnnotations : list (gmap string json))
    (metadata : option ObjectMeta) : run bool :=
  required ← admissionRequired ignoredList admissionWebhookAnnotationMutateKey metadata;
  md ← deref metadata;
  let annotations := contents h (Annotations md) in
  let name := Name md in
  found ← ingressFound defaultAnnotations name;
  let required := required && found in
  let status := default "" (annotations !! admissionWebhookAnnotationStatusKey) in
  if decide (ToLower status = "mutated") then Returns false
  else Returns required.

(** The operands [metadata.Namespace] and [metadata.Name] of the log call
    are evaluated before the result is returned. *)
Definition validationRequired (ignoredList : list string)
    (metadata : option ObjectMeta) : run bool :=
  required ← admissionRequired ignoredList admissionWebhookAnnotationValidateKey metadata;
  _ ← deref metadata;
  Returns required.

(** The [range] loop of [updateAnnotation], over the entries in the order
    they are visited. The right-hand side [val.(string)] is evaluated before
    the map is assigned to. *)
Fixpoint assignAll (annotations : mapref) (entries : list (string * json)) : Go unit :=
  match entries with
  | [] => mret tt
  | (ann, val) :: rest =>
      s ← lift (assertString val);
      _ ← mapAssign annotations ann s;
      assignAll annotations rest
  end.

Definition updateAnnotation (order : rangeOrder) (annotations : mapref)
    (defaultAnnotations : gmap string json) : Go (list patchOperation) :=
  _ ← assignAll annotations (order defaultAnnotations);
  mret ([] ++ [ {| Op := "add"; Path := "/metadata/annotations";
                    Value := annotations |} ])%list.

(** The loop of [createPatch] over the policy table: the value of
    [defaultAnnotationsForIngressName] when the loop ends. *)
Fixpoint defaultAnnotationsForIngressName `{Unicode}
    (allDefaultAnnotations : list (gmap string json)) (ingressName : string)
    : run (gmap string json) :=
  match allDefaultAnnotations with
  | [] => Returns ∅
  | dflt :: rest =>
      match dflt !! "ingressName" with
      | None => defaultAnnotationsForIngressName rest ingressName
      | Some name =>
          s ← assertString name;
          if decide (ToLower s = ToLower ingressName)
          then assertMap (dflt !! "defaultAnnotations")
          else defaultAnnotationsForIngressName rest ingressName
      end
  end.

(** [json.Marshal] of a map[string]string held in an interface: the nil map
    is written as null. *)
Definition marshalMap (h : heap) (r : mapref) : json :=
  match r with
  | None => JNull
  | Some _ => JObject (JString <$> contents h r)
  end.

Definition marshalOperation (h : heap) (op : patchOperation) : json :=
  JObject (<["op" := JString (Op op)]>
          (<["path" := JString (Path op)]>
          (<["value" := marshalMap h (Value op)]> ∅))).

(** [json.Marshal(patch)]: it reads the maps the operations refer to at the
    time of the call, and has no error for these types. *)
Definition json_Marshal (patch : list patchOperation) : Go (json * option string) := λ h,
  Returns ((match patch with
            | [] => JNull
            | _ => JArray (marshalOperation h <$> patch)
            end, None), h).

Definition createPatch `{Unicode} (order : rangeOrder) (ingressName : string)
    (availableAnnotations : mapref)
    (allDefaultAnnotations : list (gmap string json)) : Go (json * option string) :=
  dflts ← lift (defaultAnnotationsForIngressName allDefaultAnnotations ingressName);
  ops ← updateAnnotation order availableAnnotations dflts;
  json_Marshal ([] ++ ops)%list.

(** [json.Unmarshal(req.Object.Raw, &ingress)]: on success the maps of the
    object are freshly allocated. *)
Definition allocate (m : option (gmap string string)) : Go mapref :=
  match m with
  | None => mret None
  | Some m => newMap m
  end.

Definition json_Unmarshal_Ingress (raw : rawObject) : Go (string + ObjectMeta) :=
  match raw with
  | NotAnIngress err => mret (inl err)
  | IngressObject f =>
      labels ← allocate (ingressLabels f);
      annotations ← allocate (ingressAnnotations f);
      mret (inr {| Name := ingressName f; Namespace := ingressNamespace f;
                   Labels := labels; Annotations := annotations |})
  end.

Definition errorResponse (message : string) : AdmissionResponse :=
  {| ResponseUID := ""; Allowed := false; Result := Some message;
     Patch := None; PatchType := None |}.

Definition allowResponse : AdmissionResponse :=
  {| ResponseUID := ""; Allowed := true; Result := None;
     Patch := None; PatchType := None |}.

Definition patchResponse (patchBytes : json) : AdmissionResponse :=
  {| ResponseUID := ""; Allowed := true; Result := None;
     Patch := Some patchBytes; PatchType := Some PatchTypeJSONPatch |}.

(** The part of [mutate] after the [switch]. *)
Definition mutateObject `{Unicode} (order : rangeOrder) (whsvr : WebhookServer)
    (resourceName : string) (objectMeta : option ObjectMeta) : Go AdmissionResponse :=
  required ← (λ h, lift (mutationRequired h ignoredNamespaces
                           (defaultAnnotations whsvr) objectMeta) h);
  if negb required then mret allowResponse
  else
    md ← lift (deref objectMeta);
    '(patchBytes, err) ← createPatch order resourceName (Annotations md)
                           (defaultAnnotations whsvr);
    match err with
    | Some e => mret (errorResponse e)
    | None => mret (patchResponse patchBytes)
    end.

Definition mutate `{Unicode} (order : rangeOrder) (whsvr : WebhookServer)
    (ar : AdmissionReview) : Go AdmissionResponse :=
  match Request ar with
  | None => lift (Panics NilPointerDereference)
  | Some req =>
      if decide (Kind req = "Ingress") then
        r ← json_Unmarshal_Ingress (Object req);
        match r with
        | inl err => mret (errorResponse err)
        | inr ingress => mutateObject order whsvr (Name ingress) (Some ingress)
        end
      else mutateObject order whsvr "" None
  end.

(** Non-empty request bytes, represented by what [deserializer.Decode]
    makes of them: the decoded review, or an error together with the review
    as the decoder has left it, which may already hold a request. *)
Inductive bodyBytes : Type :=
  | Undecodable (err : string) (partial : AdmissionReview)
  | ReviewBytes (ar : AdmissionReview).

Record httpRequest : Type := {
  Body : option bodyBytes;   (* [None]: no body, a failed read, or no bytes *)
  ContentType : string;
  URLPath : string
}.

(** What [serve] sends back: a plain-text error of [http.Error], or the
    encoded review. *)
Inductive httpReply : Type :=
  | HttpError (message : string) (code : nat)
  | ReviewWritten (review : AdmissionReview).

Definition StatusBadRequest : nat := 400.
Definition StatusUnsupportedMediaType : nat := 415.

Definition emptyReview : AdmissionReview := {| Request := None; Response := None |}.

Definition deserializer_Decode (body : bodyBytes) : AdmissionReview * option string :=
  match body with
  | Undecodable err partial => (partial, Some err)
  | ReviewBytes ar => (ar, None)
  end.

Definition withUID (uid : string) (resp : AdmissionResponse) : AdmissionResponse :=
  {| ResponseUID := uid; Allowed := Allowed resp; Result := Result resp;
     Patch := Patch resp; PatchType := PatchType resp |}.

Definition serve `{Unicode} (order : rangeOrder) (whsvr : WebhookServer)
    (r : httpRequest) : Go httpReply :=
  match Body r with
  | None => mret (HttpError "empty body" StatusBadRequest)
  | Some body =>
      if decide (ContentType r ≠ "application/json") then
        mret (HttpError "invalid Content-Type, expect `application/json`"
                        StatusUnsupportedMediaType)
      else
        let '(ar, err) := deserializer_Decode body in
        admissionResponse ←
          match err with
          | Some e => mret (Some (errorResponse e))
          | None =>
              if decide (URLPath r = "/mutate") then
                resp ← mutate order whsvr ar; mret (Some resp)
              else mret None
          end;
        let response :=
          match admissionResponse with
          | Some resp =>
              Some (match Request ar with
                    | Some req => withUID (UID req) resp
                    | None => resp
                    end)
          | None => None
          end in
        mret (ReviewWritten {| Request := None; Response := response |})
  end.

(** ** Loading the policy table (main) *)

(** The bytes read from the annotation configuration file, represented by
    what the scanner of [encoding/json] makes of them: not a JSON text, or
    the document they encode. No bytes at all are not a JSON text. *)
Inductive fileBytes : Type :=
  | NotJSON
  | JSONText (doc : json).

(** [os.Open] followed by [ioutil.ReadAll], whose errors [main] logs or
    drops: a file that cannot be opened yields no bytes. *)
Inductive configFile : Type :=
  | CannotOpen
  | Opened (byteValue : fileBytes).

Inductive unmarshalError : Type :=
  | SyntaxError
  | UnmarshalTypeError.

(** One element of the array, stored into a [map[string]interface{}] that
    was nil: an object fills a new map, null leaves the element nil, any
    other value leaves it nil and is a type error. A nil map reads as the
    empty map and the table is only read. *)
Definition unmarshalEntry (item : json) : gmap string json * option unmarshalError :=
  match item with
  | JObject m => (m, None)
  | JNull => (∅, None)
  | _ => (∅, Some UnmarshalTypeError)
  end.

Definition firstError (errs : list (option unmarshalError)) : option unmarshalError :=
  default None (head (filter is_Some errs)).

(** [json.Unmarshal(byteValue, &defaultAnnotations)] with the slice nil
    before the call: the pair of the slice after the call and the error.
    A text that is not JSON is rejected before anything is stored; a value
    of the wrong type is skipped, the rest is stored and the earliest such
    error is returned. *)
Definition json_Unmarshal (byteValue : fileBytes)
    : list (gmap string json) * option unmarshalError :=
  match byteValue with
  | NotJSON => ([], Some SyntaxError)
  | JSONText JNull => ([], None)
  | JSONText (JArray items) =>
      (fst <$> (unmarshalEntry <$> items), firstError (snd <$> (unmarshalEntry <$> items)))
  | JSONText _ => ([], Some UnmarshalTypeError)
  end.

(** Lines 33 to 40 of [main]: the value of [defaultAnnotations] handed to
    the server. Both errors are dropped. *)
Definition loadDefaultAnnotations (file : configFile) : list (gmap string json) :=
  let byteValue := match file with
                   | CannotOpen => NotJSON
                   | Opened bytes => bytes
                   end in
  fst (json_Unmarshal byteValue).

Definition newWebhookServer (file : configFile) : WebhookServer :=
  {| defaultAnnotations := loadDefaultAnnotations file |}.

(** ** Vocabulary of the specification *)

(** A policy entry as the data model has it: [targetName], when present,
    is a string. *)
Definition nameIsString (entry : gmap string json) : bool :=
  match entry !! "ingressName" with
  | None | Some (JString _) => true
  | Some _ => false
  end.

Definition wellNamed (table : list (gmap string json)) : Prop :=
  forallb nameIsString table = true.

(** The entry's [targetName], compared case-insensitively, equals [name]. *)
Definition targets `{Unicode} (name : string) (entry : gmap string json) : bool :=
  match entry !! "ingressName" with
  | Some (JString s) => bool_decide (ToLower s = ToLower name)
  | _ => false
  end.

(** The first entry of the table, in table order, that targets [name]. *)
Definition firstMatch `{Unicode} (name : string)
    (table : list (gmap string json)) : option (gmap string json) :=
  head (filter (λ entry, targets name entry = true) table).

(** The annotations carry the status marker with value "mutated", the value
    compared case-insensitively. *)
Definition alreadyMutated `{Unicode} (annotations : gmap string string) : Prop :=
  ∃ status, annotations !! admissionWebhookAnnotationStatusKey = Some status
            ∧ ToLower status = "mutated".

Definition isString (v : json) : bool :=
  match v with
  | JString _ => true
  | _ => false
  end.

Definition stringValue (v : json) : option string :=
  match v with
  | JString s => Some s
  | _ => None
  end.

(** The default annotations of an entry as a map from string to string. *)
Definition stringsOf (defaults : gmap string json) : gmap string string :=
  omap stringValue defaults.

Definition wellTyped (defaults : gmap string json) : Prop :=
  map_Forall (λ _ v, isString v = true) defaults.

(** What the loop of [updateAnnotation] has written into a map holding [m]
    once it has visited [entries], all of whose values are strings. *)
Definition assigned (entries : list (string * json)) (m : gmap string string)
    : gmap string string :=
  foldl (λ acc kv, match kv.2 with
                   | JString s => <[kv.1 := s]> acc
                   | _ => acc
                   end) m entries.

(** Whether [json.Unmarshal] stores nothing into the table for this file:
    it cannot be opened, its bytes are not a JSON text, or the JSON value is
    not an array. *)
Definition storesNothing (file : configFile) : bool :=
  match file with
  | CannotOpen => true
  | Opened NotJSON => true
  | Opened (JSONText (JArray _)) => false
  | Opened (JSONText _) => true
  end.

(** Two runs end the same way: they return the same value, or both panic. *)
Definition sameOutcome {A} (x y : run A) : Prop :=
  match x, y with
  | Returns a, Returns b => a = b
  | Panics _, Panics _ => True
  | _, _ => False
  end.

(** The patch document with the single operation
    {op: "add", path: "/metadata/annotations", value: ...}. *)
Definition addAnnotations (value : json) : json :=
  JArray [JObject (<["op" := JString "add"]>
                  (<["path" := JString "/metadata/annotations"]>
                  (<["value" := value]> ∅)))].

(** The annotations of an object after the platform has applied a patch
    document made of "add" operations at the annotations path: each one
    replaces the whole map. Any other document is not applied. *)
Definition applyOperation (annotations : option (gmap string string)) (op : json)
    : option (option (gmap string string)) :=
  match op with
  | JObject o =>
      match o !! "op", o !! "path", o !! "value" with
      | Some (JString "add"), Some (JString "/metadata/annotations"), Some (JObject m) =>
          Some (Some (omap stringValue m))
      | Some (JString "add"), Some (JString "/metadata/annotations"), Some JNull =>
          Some None
      | _, _, _ => None
      end
  | _ => None
  end.

Definition applyPatch (patch : json) (annotations : option (gmap string string))
    : option (option (gmap string string)) :=
  match patch with
  | JArray ops =>
      foldl (λ acc op, a ← acc; applyOperation a op) (Some annotations) ops
  | _ => None
  end.

(** ** Sample data *)

Definition sampleDefaults : gmap string json :=
  {[ "ingress.citrix.com/secure-port" := JString "4443";
     "ingress.citrix.com/insecure-port" := JString "81" ]}.

Definition samplePolicy : gmap string json :=
  {[ "ingressName" := JString "test-ingress";
     "defaultAnnotations" := JObject sampleDefaults ]}.

Definition sampleTable : list (gmap string json) := [samplePolicy].

(** Entries around the one for test-ingress: one without a target name, one
    for another Ingress, and a later one for the same name in capitals. *)
Definition unnamedPolicy : gmap string json :=
  {[ "defaultAnnotations" := JObject {[ "ingress.citrix.com/secure-port" := JString "1" ]} ]}.

Definition otherPolicy : gmap string json :=
  {[ "ingressName" := JString "other-ingress";
     "defaultAnnotations" := JObject {[ "ingress.citrix.com/secure-port" := JString "2" ]} ]}.

Definition shadowedPolicy : gmap string json :=
  {[ "ingressName" := JString "TEST-INGRESS";
     "defaultAnnotations" := JObject {[ "ingress.citrix.com/secure-port" := JString "3" ]} ]}.

(** Entries for test-ingress that the data model does not allow: no
    defaults at all, and a default that is a number. *)
Definition barePolicy : gmap string json :=
  {[ "ingressName" := JString "test-ingress" ]}.

Definition numericDefaults : gmap string json :=
  {[ "ingress.citrix.com/secure-port" := JNumber "4443" ]}.

Definition numericPolicy : gmap string json :=
  {[ "ingressName" := JString "test-ingress";
     "defaultAnnotations" := JObject numericDefaults ]}.

(** A request whose body is not an admission review. *)
Definition undecodableRequest : httpRequest :=
  {| Body := Some (Undecodable "couldn't get version/kind" emptyReview);
     ContentType := "application/json"; URLPath := "/mutate" |}.

(** A configuration document whose second element is not an object. *)
Definition brokenDocument : json := JArray [JObject samplePolicy; JNumber "7"].

(** The annotations of the Ingress of the README, before the webhook. *)
Definition classAnnotations : gmap string string :=
  {[ "kubernetes.io/ingress.class" := "class1" ]}.

(** A heap where location 1 holds those annotations. *)
Definition sampleHeap : gmap positive (gmap string string) :=
  {[ 1%positive := classAnnotations ]}.

Definition sampleServer : WebhookServer := {| defaultAnnotations := sampleTable |}.

(** A heap where location 1 holds annotations with the status marker. *)
Definition mutatedHeap : gmap positive (gmap string string) :=
  {[ 1%positive := {[ admissionWebhookAnnotationStatusKey := "Mutated" ]} ]}.

(** The metadata of test-ingress in namespace default. *)
Definition sampleMeta (annotations : option positive) : ObjectMeta :=
  {| Name := "test-ingress"; Namespace := "default";
     Labels := None; Annotations := annotations |}.

(** An Ingress named test-ingress in namespace default. *)
Definition sampleIngress (annotations : option (gmap string string)) : ingressFields :=
  {| ingressName := "test-ingress"; ingressNamespace := "default";
     ingressLabels := None; ingressAnnotations := annotations |}.

Definition sampleReview (kind : string) (object : rawObject) : AdmissionReview :=
  {| Request := Some {| UID := "705ab4f5-6393-11e8-b7cc-42010a800002";
                        Kind := kind; Operation := "CREATE"; Object := object |};
     Response := None |}.

(** ** Vocabulary for the request path *)

(** The decision of the specification's [shouldMutate], as one boolean: the
    namespace is not excluded, some entry targets the name, and the
    annotations do not carry the "mutated" status. *)
Definition shouldMutate `{Unicode} (excluded : list string)
    (table : list (gmap string json)) (namespace name : string)
    (annotations : gmap string string) : bool :=
  bool_decide (namespace ∉ excluded)
  && bool_decide (is_Some (firstMatch name table))
  && negb (bool_decide
             (ToLower (default "" (annotations !! admissionWebhookAnnotationStatusKey))
              = "mutated")).

(** An entry with a target name is typed as the data model says: the name is
    a string and the defaults are an object of strings. *)
Definition policyOK (entry : gmap string json) : bool :=
  match entry !! "ingressName" with
  | None => true
  | Some (JString _) =>
      match entry !! "defaultAnnotations" with
      | Some (JObject defaults) => bool_decide (wellTyped defaults)
      | _ => false
      end
  | Some _ => false
  end.

Definition tableOK (table : list (gmap string json)) : Prop :=
  forallb policyOK table = true.

(** The elements of a configuration array that are objects, in order. *)
Definition objectsOf (items : list json) : list (gmap string json) :=
  omap (λ item, match item with JObject m => Some m | _ => None end) items.

(** A response that reports an error: not allowed, the message in place of
    a patch. *)
Definition reportsError (err : string) (resp : AdmissionResponse) : Prop :=
  Allowed resp = false ∧ Result resp = Some err
  ∧ Patch resp = None ∧ PatchType resp = None.

(** The response is one of the three that [mutate] builds. *)
Definition responseShape (resp : AdmissionResponse) : Prop :=
  resp = allowResponse
  ∨ (∃ value, resp = patchResponse (addAnnotations value))
  ∨ (∃ err, resp = errorResponse err).

(** ** More sample data *)

(** test-ingress in the system namespace, without annotations. *)
Definition systemIngress : ingressFields :=
  {| ingressName := "test-ingress"; ingressNamespace := "kube-system";
     ingressLabels := None; ingressAnnotations := None |}.

(** test-ingress that already sets the secure port and an ingress class. *)
Definition submittedAnnotations : gmap string string :=
  {[ "ingress.citrix.com/secure-port" := "8443";
     "kubernetes.io/ingress.class" := "class1" ]}.

(** A request that carries a review. *)
Definition reviewRequest (path : string) (ar : AdmissionReview) : httpRequest :=
  {| Body := Some (ReviewBytes ar); ContentType := "application/json";
     URLPath := path |}.

(** A request whose body the decoder rejects after it has read the request
    of the review. *)
Definition partlyDecodedRequest : httpRequest :=
  {| Body := Some (Undecodable "unknown field"
                     (sampleReview "Ingress" (NotAnIngress "")));
     ContentType := "application/json"; URLPath := "/mutate" |}.

(** The review of test-ingress with an empty annotation map, sent to the
    validation path, and a request without a body. *)
Definition validateRequest : httpRequest :=
  reviewRequest "/validate"
    (sampleReview "Ingress" (IngressObject (sampleIngress (Some ∅)))).

Definition bodylessRequest : httpRequest :=
  {| Body := None; ContentType := "application/json"; URLPath := "/mutate" |}.

(** A review without a request. *)
Definition requestlessReview : AdmissionReview :=
  {| Request := None; Response := None |}.

(** An entry whose target name is a number, and one for test-ingress with
    an empty set of defaults. *)
Definition numericNamePolicy : gmap string json :=
  {[ "ingressName" := JNumber "5" ]}.

Definition emptyDefaultsPolicy : gmap string json :=
  {[ "ingressName" := JString "test-ingress";
     "defaultAnnotations" := JObject ∅ ]}.

(** * Properties *)

Section Decision.
Context `{Unicode}.

Lemma ToLower_empty : ToLower "" = "".
Proof. reflexivity. Qed.

Lemma admissionRequired_Some ignoredList key md :
  admissionRequired ignoredList key (Some md)
  = Returns (bool_decide (Namespace md ∉ ignoredList)).
Proof.
  induction ignoredList as [|namespace rest IH];
    cbn [admissionRequired deref mbind run_bind].
  - rewrite bool_decide_eq_true_2; [done | apply not_elem_of_nil].
  - destruct (decide (Namespace md = namespace)) as [Heq|Hne].
    + rewrite bool_decide_eq_false_2; [done |].
      intros Hn. apply Hn. rewrite Heq. apply list_elem_of_here.
    + rewrite IH. f_equal. apply bool_decide_ext.
      rewrite not_elem_of_cons. tauto.
Qed.

Lemma wellNamed_cons entry table :
  wellNamed (entry :: table) ↔ nameIsString entry = true ∧ wellNamed table.
Proof. unfold wellNamed. simpl. apply andb_true_iff. Qed.

Lemma ingressFound_existsb table name :
  wellNamed table →
  ingressFound table name = Returns (existsb (targets name) table).
Proof.
  induction table as [|dflt rest IH]; intros Hwn; simpl; [done |].
  apply wellNamed_cons in Hwn as [Hn Hrest].
  unfold nameIsString in Hn. unfold targets at 1.
  destruct (dflt !! "ingressName") as [[| | |s| |]|]; try discriminate; simpl.
  - case_decide as Heq.
    + by rewrite bool_decide_eq_true_2.
    + rewrite bool_decide_eq_false_2 by done. by apply IH.
  - by apply IH.
Qed.

Lemma existsb_targets table name :
  existsb (targets name) table = true ↔
  ∃ entry s, entry ∈ table ∧ entry !! "ingressName" = Some (JString s)
             ∧ ToLower s = ToLower name.
Proof.
  rewrite existsb_exists. split.
  - intros (entry & Hin & Ht). unfold targets in Ht.
    destruct (entry !! "ingressName") as [[| | |s| |]|] eqn:He; try discriminate.
    exists entry, s. apply list_elem_of_In in Hin. apply bool_decide_eq_true in Ht. done.
  - intros (entry & s & Hin & He & Ht). exists entry. split.
    + by apply list_elem_of_In.
    + unfold targets. rewrite He. by apply bool_decide_eq_true.
Qed.

Lemma status_mutated (annotations : gmap string string) :
  ToLower (default "" (annotations !! admissionWebhookAnnotationStatusKey)) = "mutated"
  ↔ alreadyMutated annotations.
Proof.
  unfold alreadyMutated.
  destruct (annotations !! admissionWebhookAnnotationStatusKey) as [status|]; simpl.
  - split; [intros Hs; by exists status | by intros (s & [= <-] & Hs)].
  - split; [by rewrite ToLower_empty | by intros (s & Hs & _)].
Qed.

(** The decision as a closed formula, for a table whose names are strings. *)
Lemma mutationRequired_eval (h : heap) ignoredList table md :
  wellNamed table →
  mutationRequired h ignoredList table (Some md)
  = Returns (bool_decide (Namespace md ∉ ignoredList)
             && existsb (targets (Name md)) table
             && negb (bool_decide (ToLower (default ""
                  (contents h (Annotations md) !! admissionWebhookAnnotationStatusKey))
                  = "mutated"))).
Proof.
  intros Hwn. unfold mutationRequired.
  rewrite admissionRequired_Some. cbn [mbind run_bind deref].
  rewrite (ingressFound_existsb _ _ Hwn). cbn [mbind run_bind].
  destruct (decide (ToLower (default "" (contents h (Annotations md)
              !! admissionWebhookAnnotationStatusKey)) = "mutated")) as [Hs|Hs].
  - rewrite (bool_decide_eq_true_2 _ Hs). cbn [negb]. by rewrite andb_false_r.
  - rewrite (bool_decide_eq_false_2 _ Hs). cbn [negb]. by rewrite andb_true_r.
Qed.

(** C1. For a policy table whose target names are strings and any object,
    [mutationRequired] returns, and it returns true exactly when the
    namespace is not one of the excluded namespaces, some entry's target
    name equals the object's name case-insensitively, and the annotations
    do not carry the status marker with value "mutated"
    (case-insensitively). The result is the same for any two objects, in
    any two heaps, that agree on namespace, name and annotations. *)
Theorem mutationRequired_iff (h : heap) (table : list (gmap string json))
    (md : ObjectMeta) :
  wellNamed table →
  (∃ required, mutationRequired h ignoredNamespaces table (Some md) = Returns required
     ∧ (required = true ↔
          (Namespace md ∉ ignoredNamespaces)
          ∧ (∃ entry s, entry ∈ table ∧ entry !! "ingressName" = Some (JString s)
                        ∧ ToLower s = ToLower (Name md))
          ∧ ¬ alreadyMutated (contents h (Annotations md))))
  ∧ (∀ (h' : heap) (md' : ObjectMeta),
       Namespace md' = Namespace md → Name md' = Name md →
       contents h' (Annotations md') = contents h (Annotations md) →
       mutationRequired h' ignoredNamespaces table (Some md')
       = mutationRequired h ignoredNamespaces table (Some md)).
Proof.
  intros Hwn. split.
  - eexists. split; [by apply mutationRequired_eval |].
    rewrite !andb_true_iff, negb_true_iff, bool_decide_eq_true,
      bool_decide_eq_false, existsb_targets, status_mutated.
    tauto.
  - intros h' md' Hns Hname Hann.
    rewrite !mutationRequired_eval by done. by rewrite Hns, Hname, Hann.
Qed.

End Decision.

(** ** The merge loop *)

Section Merge.

Lemma assignAll_strings (l : positive) entries (h : heap) m :
  h !! l = Some m →
  Forall (λ kv, isString kv.2 = true) entries →
  assignAll (Some l) entries h = Returns (tt, <[l := assigned entries m]> h).
Proof.
  revert h m. induction entries as [|[k v] rest IH]; intros h m Hl Hall.
  - cbn. by rewrite insert_id.
  - apply Forall_cons in Hall as [Hv Hrest].
    destruct v; try discriminate.
    cbn [assignAll]. unfold mbind, Go_bind. cbn [lift assertString mapAssign].
    cbn [contents]. rewrite Hl. cbn [default].
    rewrite (IH _ (<[k := s]> m)); [| by rewrite lookup_insert_eq | done].
    by rewrite insert_insert_eq.
Qed.

Lemma assignAll_not_string (l : positive) entries (h : heap) :
  Exists (λ kv, isString kv.2 = false) entries →
  assignAll (Some l) entries h = Panics InterfaceConversion.
Proof.
  revert h. induction entries as [|[k v] rest IH]; intros h Hex.
  - by apply Exists_nil in Hex.
  - cbn [assignAll]. unfold mbind, Go_bind.
    destruct v; try done.
    cbn [lift assertString mapAssign].
    apply Exists_cons in Hex as [Hv | Hrest]; [done |].
    by apply IH.
Qed.

Lemma assignAll_nil_map entries (h : heap) :
  entries ≠ [] →
  assignAll None entries h
  = Panics (if isString (hd ("", JNull) entries).2
            then AssignmentToNilMap else InterfaceConversion).
Proof.
  destruct entries as [|[k v] rest]; [done |]. intros _.
  cbn [assignAll]. unfold mbind, Go_bind. by destruct v.
Qed.

Lemma assigned_lookup_other entries m k :
  k ∉ entries.*1 → assigned entries m !! k = m !! k.
Proof.
  revert m. induction entries as [|[k' v] rest IH]; intros m Hk; [done |].
  rewrite fmap_cons, not_elem_of_cons in Hk. destruct Hk as [Hne Hrest].
  cbn. unfold assigned in IH. rewrite IH by done.
  destruct v; try done. by rewrite lookup_insert_ne.
Qed.

Lemma assigned_lookup_in entries m k s :
  NoDup entries.*1 → (k, JString s) ∈ entries →
  assigned entries m !! k = Some s.
Proof.
  revert m. induction entries as [|[k' v] rest IH]; intros m Hnd Hin.
  - by apply elem_of_nil in Hin.
  - rewrite fmap_cons in Hnd. apply NoDup_cons in Hnd as [Hk' Hnd].
    apply elem_of_cons in Hin as [[= <- <-] | Hin].
    + cbn. fold (assigned rest (<[k := s]> m)).
      rewrite assigned_lookup_other by done. by rewrite lookup_insert_eq.
    + cbn. unfold assigned in IH. by apply IH.
Qed.

Lemma lookup_stringsOf_string defaults k s :
  defaults !! k = Some (JString s) → stringsOf defaults !! k = Some s.
Proof. intros Hk. unfold stringsOf. rewrite lookup_omap, Hk. done. Qed.

Lemma lookup_stringsOf_None defaults k :
  defaults !! k = None → stringsOf defaults !! k = None.
Proof. intros Hk. unfold stringsOf. rewrite lookup_omap, Hk. done. Qed.

(** Whatever the order of the visit, the loop leaves the left-biased union
    of the defaults and the map it started from. *)
Lemma assigned_union (order : rangeOrder) defaults m :
  wellTyped defaults →
  assigned (order defaults) m = stringsOf defaults ∪ m.
Proof.
  intros Hwt. apply map_eq. intros k.
  assert (Hnd : NoDup (order defaults).*1).
  { rewrite (visit_perm order defaults). apply NoDup_fst_map_to_list. }
  destruct (defaults !! k) as [v|] eqn:Hk.
  - pose proof (Hwt k v Hk) as Hs. destruct v; try discriminate.
    rewrite (assigned_lookup_in _ _ k s); [| done |].
    + symmetry. apply lookup_union_Some_l. by apply lookup_stringsOf_string.
    + rewrite (visit_perm order defaults). by apply elem_of_map_to_list.
  - rewrite assigned_lookup_other.
    + rewrite lookup_union_r; [done | by apply lookup_stringsOf_None].
    + rewrite (visit_perm order defaults).
      intros Hin. apply list_elem_of_fmap in Hin as ([k' v] & -> & Hin).
      apply elem_of_map_to_list in Hin. simpl in Hk. congruence.
Qed.

Lemma visit_wellTyped (order : rangeOrder) defaults :
  wellTyped defaults → Forall (λ kv, isString kv.2 = true) (order defaults).
Proof.
  intros Hwt. apply Forall_forall. intros [k v] Hin.
  rewrite (visit_perm order defaults) in Hin.
  apply elem_of_map_to_list in Hin. exact (Hwt k v Hin).
Qed.

Lemma visit_not_wellTyped (order : rangeOrder) defaults k v :
  defaults !! k = Some v → isString v = false →
  Exists (λ kv, isString kv.2 = false) (order defaults).
Proof.
  intros Hk Hv. apply Exists_exists. exists (k, v). split; [| done].
  rewrite (visit_perm order defaults). by apply elem_of_map_to_list.
Qed.

Lemma visit_nonempty (order : rangeOrder) defaults :
  defaults ≠ ∅ → order defaults ≠ [].
Proof.
  intros Hne Hnil. apply Hne. apply map_to_list_empty_iff.
  apply Permutation_nil_r. rewrite <- Hnil. symmetry. apply visit_perm.
Qed.

Lemma visit_empty (order : rangeOrder) : order ∅ = [].
Proof.
  apply Permutation_nil_r. rewrite (visit_perm order ∅).
  by rewrite map_to_list_empty.
Qed.

End Merge.

(** ** The patch synthesizer *)

Section Synthesis.
Context `{Unicode}.

(** The lookup of [createPatch], for a table whose names are strings: the
    defaults of the first entry that targets the name, none when no entry
    does. *)
Lemma defaultAnnotationsForIngressName_firstMatch table name :
  wellNamed table →
  defaultAnnotationsForIngressName table name
  = match firstMatch name table with
    | Some entry => assertMap (entry !! "defaultAnnotations")
    | None => Returns ∅
    end.
Proof.
  unfold firstMatch.
  induction table as [|dflt rest IH]; intros Hwn; [done |].
  apply wellNamed_cons in Hwn as [Hn Hrest].
  cbn [defaultAnnotationsForIngressName]. unfold nameIsString in Hn.
  destruct (dflt !! "ingressName") as [v|] eqn:He.
  - destruct v; try discriminate. cbn [assertString mbind run_bind].
    destruct (decide (ToLower s = ToLower name)) as [Heq|Hne].
    + rewrite filter_cons_True; [done |].
      unfold targets. rewrite He. by apply bool_decide_eq_true.
    + rewrite filter_cons_False; [by apply IH |].
      unfold targets. rewrite He. rewrite bool_decide_eq_false_2; done.
  - rewrite filter_cons_False; [by apply IH |].
    unfold targets. by rewrite He.
Qed.

Lemma createPatch_unfold (order : rangeOrder) name r table (h : heap) :
  createPatch order name r table h
  = match defaultAnnotationsForIngressName table name with
    | Returns dflts =>
        match assignAll r (order dflts) h with
        | Returns (_, h') =>
            Returns ((addAnnotations (marshalMap h' r), None), h')
        | Panics p => Panics p
        end
    | Panics p => Panics p
    end.
Proof.
  unfold createPatch, updateAnnotation, mbind, Go_bind, lift.
  destruct (defaultAnnotationsForIngressName table name) as [dflts|p]; [| done].
  destruct (assignAll r (order dflts) h) as [[[] h']|p]; done.
Qed.

(** [json.Marshal] has no error for a patch: the error branch of [mutate]
    after [createPatch] is never taken. *)
Lemma createPatch_no_error (order : rangeOrder) name r table (h h' : heap) doc err :
  createPatch order name r table h = Returns ((doc, err), h') → err = None.
Proof.
  rewrite createPatch_unfold.
  destruct (defaultAnnotationsForIngressName table name) as [dflts|p]; [| done].
  destruct (assignAll r (order dflts) h) as [[[] h1]|p]; [| done].
  by intros [= _ <- _].
Qed.

(** The merge: on a live map and string defaults, [createPatch] returns the
    single "add" operation whose value is the defaults laid over the
    current annotations, and the map it was given now holds that value. *)
Lemma createPatch_merges (order : rangeOrder) name (l : positive) table
    (h : heap) m defaults :
  defaultAnnotationsForIngressName table name = Returns defaults →
  wellTyped defaults →
  h !! l = Some m →
  createPatch order name (Some l) table h
  = Returns ((addAnnotations (JObject (JString <$> (stringsOf defaults ∪ m))), None),
             <[l := stringsOf defaults ∪ m]> h).
Proof.
  intros Hd Hwt Hl. rewrite createPatch_unfold, Hd.
  rewrite (assignAll_strings l _ h m Hl (visit_wellTyped order _ Hwt)).
  rewrite assigned_union by done.
  unfold marshalMap, contents. by rewrite lookup_insert_eq.
Qed.

Lemma createPatch_nil_map (order : rangeOrder) name table (h : heap) defaults :
  defaultAnnotationsForIngressName table name = Returns defaults →
  wellTyped defaults →
  createPatch order name None table h
  = if decide (defaults = ∅)
    then Returns ((addAnnotations JNull, None), h)
    else Panics AssignmentToNilMap.
Proof.
  intros Hd Hwt. rewrite createPatch_unfold, Hd.
  destruct (decide (defaults = ∅)) as [-> | Hne].
  - by rewrite visit_empty.
  - rewrite assignAll_nil_map by by apply visit_nonempty.
    pose proof (visit_nonempty order _ Hne) as Hnil.
    pose proof (visit_wellTyped order _ Hwt) as Hall.
    destruct (order defaults) as [|kv rest]; [done |].
    apply Forall_cons in Hall as [Hkv _]. cbn [hd]. by rewrite Hkv.
Qed.

Lemma omap_stringValue (m : gmap string string) :
  omap stringValue (JString <$> m) = m.
Proof.
  apply map_eq. intros k. rewrite lookup_omap, lookup_fmap.
  by destruct (m !! k).
Qed.

Lemma applyPatch_addAnnotations (m : gmap string string) before :
  applyPatch (addAnnotations (JObject (JString <$> m))) before = Some (Some m).
Proof.
  unfold applyPatch, addAnnotations. cbn [foldl mbind option_bind applyOperation].
  rewrite lookup_insert_eq.
  rewrite lookup_insert_ne by done. rewrite lookup_insert_eq.
  do 2 (rewrite lookup_insert_ne by done). rewrite lookup_insert_eq.
  cbn. by rewrite omap_stringValue.
Qed.

End Synthesis.

Section SynthesisCases.
Context `{Unicode}.

Lemma wellTyped_visit (order : rangeOrder) defaults :
  Forall (λ kv, isString kv.2 = true) (order defaults) → wellTyped defaults.
Proof.
  intros Hall k v Hk. rewrite Forall_forall in Hall.
  apply (Hall (k, v)). rewrite (visit_perm order defaults).
  by apply elem_of_map_to_list.
Qed.

Lemma not_wellTyped (defaults : gmap string json) :
  ¬ wellTyped defaults → ∃ k v, defaults !! k = Some v ∧ isString v = false.
Proof.
  intros Hn. apply map_not_Forall in Hn as (k & v & Hk & Hv); [| apply _].
  exists k, v. split; [done |]. by destruct (isString v).
Qed.

(** [createPatch] on a live map, case by case. *)
Lemma createPatch_live (order : rangeOrder) name (l : positive) table (h : heap) m :
  h !! l = Some m →
  createPatch order name (Some l) table h
  = match defaultAnnotationsForIngressName table name with
    | Returns defaults =>
        if decide (wellTyped defaults)
        then Returns ((addAnnotations (JObject (JString <$> (stringsOf defaults ∪ m))),
                       None), <[l := stringsOf defaults ∪ m]> h)
        else Panics InterfaceConversion
    | Panics p => Panics p
    end.
Proof.
  intros Hl.
  destruct (defaultAnnotationsForIngressName table name) as [defaults|p] eqn:Hd.
  - destruct (decide (wellTyped defaults)) as [Hwt|Hwt].
    + by apply createPatch_merges.
    + rewrite createPatch_unfold, Hd.
      apply not_wellTyped in Hwt as (k & v & Hk & Hv).
      by rewrite (assignAll_not_string l _ h (visit_not_wellTyped order _ k v Hk Hv)).
  - by rewrite createPatch_unfold, Hd.
Qed.

(** [createPatch] on the nil map, case by case: it returns only when there
    is nothing to write. *)
Lemma createPatch_nil (order : rangeOrder) name table (h : heap) :
  createPatch order name None table h
  = match defaultAnnotationsForIngressName table name with
    | Returns defaults =>
        if decide (defaults = ∅)
        then Returns ((addAnnotations JNull, None), h)
        else Panics (if isString (hd ("", JNull) (order defaults)).2
                     then AssignmentToNilMap else InterfaceConversion)
    | Panics p => Panics p
    end.
Proof.
  rewrite createPatch_unfold.
  destruct (defaultAnnotationsForIngressName table name) as [defaults|p]; [| done].
  destruct (decide (defaults = ∅)) as [-> | Hne].
  - by rewrite visit_empty.
  - by rewrite assignAll_nil_map by by apply visit_nonempty.
Qed.

Lemma stringsOf_union_idemp (d m : gmap string string) : d ∪ (d ∪ m) = d ∪ m.
Proof. by rewrite (assoc_L (∪)), (idemp_L (∪)). Qed.

End SynthesisCases.

Lemma sampleDefaults_wellTyped : wellTyped sampleDefaults.
Proof.
  intros k v Hk. unfold sampleDefaults in Hk.
  apply lookup_insert_Some in Hk as [[_ <-] | [_ Hk]]; [done |].
  apply lookup_singleton_Some in Hk as [_ <-]. done.
Defined.

Lemma sampleDefaults_nonempty : sampleDefaults ≠ ∅.
Proof.
  intros Heq. apply (f_equal (λ m, m !! "ingress.citrix.com/secure-port")) in Heq.
  vm_compute in Heq. discriminate.
Defined.

(** C2. An Ingress named test-ingress that carries no annotations, under
    the policy table of the scenario (secure-port 4443, insecure-port 81
    for test-ingress): [createPatch] does not return the patch that adds
    the two defaults, it panics on the assignment to the nil map, whatever
    the order of the visit and the heap. *)
Theorem createPatch_absent_annotations `{Unicode} (order : rangeOrder) (h : heap) :
  createPatch order "test-ingress" None sampleTable h = Panics AssignmentToNilMap.
Proof.
  rewrite (createPatch_nil_map order "test-ingress" sampleTable h sampleDefaults).
  - rewrite decide_False; [done | apply sampleDefaults_nonempty].
  - vm_compute. reflexivity.
  - apply sampleDefaults_wellTyped.
Qed.

Section Effects.
Context `{Unicode}.

(** C4 (amended). Patch synthesis is deterministic but works in place. For
    the same name, annotation map and policy table, any two orders of
    visiting the defaults end the same way: the same patch document and
    the same heap, or a panic in both. When it returns, the map it was given
    holds the merged annotations (the defaults laid over what it held
    before), which is the value of the patch; no other map has changed; and
    a second call with the same arguments returns the same document and
    changes nothing more. *)
Theorem createPatch_deterministic_in_place (order1 order2 : rangeOrder)
    (name : string) (r : mapref) (table : list (gmap string json)) (h : heap) :
  (∀ l, r = Some l → is_Some (h !! l)) →
  sameOutcome (createPatch order1 name r table h) (createPatch order2 name r table h)
  ∧ ∀ out h1,
      createPatch order1 name r table h = Returns (out, h1) →
      (∃ defaults, defaultAnnotationsForIngressName table name = Returns defaults
                   ∧ contents h1 r = stringsOf defaults ∪ contents h r)
      ∧ out = (addAnnotations (marshalMap h1 r), None)
      ∧ (∀ l, r ≠ Some l → h1 !! l = h !! l)
      ∧ createPatch order2 name r table h1 = Returns (out, h1).
Proof.
  intros Hlive. destruct r as [l|].
  - destruct (Hlive l eq_refl) as [m Hl].
    rewrite !(createPatch_live _ name l table h m Hl).
    destruct (defaultAnnotationsForIngressName table name) as [defaults|p] eqn:Hd;
      [| done].
    destruct (decide (wellTyped defaults)) as [Hwt|Hwt]; [| done].
    split; [done |]. intros out h1 [= <- <-].
    assert (Hl1 : (<[l := stringsOf defaults ∪ m]> h : heap) !! l
                  = Some (stringsOf defaults ∪ m)) by apply lookup_insert_eq.
    split; [| split; [| split]].
    + exists defaults. split; [done |]. cbn [contents]. by rewrite Hl1, Hl.
    + unfold marshalMap. cbn [contents]. by rewrite Hl1.
    + intros l' Hne. rewrite lookup_insert_ne; [done | congruence].
    + rewrite (createPatch_live _ name l table _ _ Hl1), Hd.
      rewrite decide_True by done.
      by rewrite stringsOf_union_idemp, insert_insert_eq.
  - rewrite !createPatch_nil.
    destruct (defaultAnnotationsForIngressName table name) as [defaults|p] eqn:Hd;
      [| done].
    destruct (decide (defaults = ∅)) as [-> | Hne]; [| done].
    split; [done |]. intros out h1 [= <- <-].
    split; [| split; [| split]]; [| done | done |].
    + exists ∅. split; [done |]. cbn [contents]. unfold stringsOf.
      by rewrite omap_empty, (left_id_L ∅ (∪)).
    + rewrite createPatch_nil, Hd. by rewrite decide_True.
Qed.

End Effects.

(** C4 (as stated) fails: the Ingress test-ingress holds the annotation
    kubernetes.io/ingress.class; after [createPatch] has returned, the map
    that was passed in holds the two port annotations as well. *)
Lemma createPatch_writes_its_input :
  ∃ out h1,
    @createPatch asciiOnly canonicalOrder "test-ingress" (Some 1%positive)
      sampleTable sampleHeap = Returns (out, h1)
    ∧ contents sampleHeap (Some 1%positive) !! "ingress.citrix.com/secure-port" = None
    ∧ contents h1 (Some 1%positive) !! "ingress.citrix.com/secure-port" = Some "4443".
Proof.
  eexists _, _. split; [vm_compute; reflexivity |].
  split; vm_compute; reflexivity.
Qed.

Lemma createPatch_deterministic_in_place_witness :
  sameOutcome
    (@createPatch asciiOnly canonicalOrder "test-ingress" (Some 1%positive)
       sampleTable sampleHeap)
    (@createPatch asciiOnly reverseOrder "test-ingress" (Some 1%positive)
       sampleTable sampleHeap).
Proof.
  apply (@createPatch_deterministic_in_place asciiOnly canonicalOrder reverseOrder
           "test-ingress" (Some 1%positive) sampleTable sampleHeap).
  intros l [= <-]. vm_compute. eauto.
Defined.

Section Idempotence.
Context `{Unicode}.

Lemma mutationRequired_mutated (h : heap) ignoredList table md :
  wellNamed table →
  alreadyMutated (contents h (Annotations md)) →
  mutationRequired h ignoredList table (Some md) = Returns false.
Proof.
  intros Hwn Hm. rewrite mutationRequired_eval by done.
  apply status_mutated in Hm.
  rewrite (bool_decide_eq_true_2 _ Hm). cbn [negb]. by rewrite andb_false_r.
Qed.

(** C5. With a policy table whose target names are strings, an object that
    carries the status marker with a value equal to "mutated" up to case is
    never to be mutated, whether or not an entry targets it. Consequently:
    [createPatch] on an object returns a patch; the platform applies it;
    once the status marker is set on the result, [mutationRequired] on that
    object is false. *)
Theorem mutated_never_reapplied (table : list (gmap string json)) :
  wellNamed table →
  (∀ (h : heap) md,
     alreadyMutated (contents h (Annotations md)) →
     mutationRequired h ignoredNamespaces table (Some md) = Returns false)
  ∧ (∀ (order : rangeOrder) name (l : positive) (h : heap) m defaults,
       h !! l = Some m →
       defaultAnnotationsForIngressName table name = Returns defaults →
       wellTyped defaults →
       ∃ doc h1 after,
         createPatch order name (Some l) table h = Returns ((doc, None), h1)
         ∧ applyPatch doc (Some m) = Some (Some after)
         ∧ ∀ status (h2 : heap) md2,
             ToLower status = "mutated" →
             contents h2 (Annotations md2)
             = <[admissionWebhookAnnotationStatusKey := status]> after →
             mutationRequired h2 ignoredNamespaces table (Some md2) = Returns false).
Proof.
  intros Hwn. split.
  - intros h md Hm. by apply mutationRequired_mutated.
  - intros order name l h m defaults Hl Hd Hwt.
    eexists _, _, _. split; [by apply createPatch_merges |].
    split; [apply applyPatch_addAnnotations |].
    intros status h2 md2 Hs Hc. apply mutationRequired_mutated; [done |].
    exists status. rewrite Hc. by rewrite lookup_insert_eq.
Qed.

End Idempotence.

Lemma mutated_never_reapplied_witness :
  @mutationRequired asciiOnly mutatedHeap ignoredNamespaces sampleTable
    (Some (sampleMeta (Some 1%positive))) = Returns false
  ∧ ∃ doc h1 after,
      @createPatch asciiOnly canonicalOrder "test-ingress" (Some 1%positive)
        sampleTable sampleHeap = Returns ((doc, None), h1)
      ∧ applyPatch doc (Some classAnnotations) = Some (Some after)
      ∧ after !! "ingress.citrix.com/insecure-port" = Some "81".
Proof.
  assert (Hwn : wellNamed sampleTable) by (vm_compute; reflexivity).
  destruct (@mutated_never_reapplied asciiOnly sampleTable Hwn) as [Hmarked Hpatched].
  split.
  - apply Hmarked. exists "Mutated". split; vm_compute; reflexivity.
  - destruct (Hpatched canonicalOrder "test-ingress" 1%positive sampleHeap
                classAnnotations
                sampleDefaults)
      as (doc & h1 & after & Hc & Ha & _).
    + vm_compute. reflexivity.
    + vm_compute. reflexivity.
    + apply sampleDefaults_wellTyped.
    + exists doc, h1, after. split; [done |]. split; [done |].
      rewrite (@createPatch_merges asciiOnly canonicalOrder "test-ingress" 1%positive
                 sampleTable sampleHeap classAnnotations sampleDefaults) in Hc.
      * injection Hc as <- _. rewrite applyPatch_addAnnotations in Ha.
        injection Ha as <-. vm_compute. reflexivity.
      * vm_compute. reflexivity.
      * apply sampleDefaults_wellTyped.
      * vm_compute. reflexivity.
Defined.

(** ** Table order *)

Section TableOrder.
Context `{Unicode}.

(** Both functions use the table only through their lookup loops. *)
Lemma mutationRequired_found (h : heap) ignoredList table1 table2 md :
  ingressFound table1 (Name md) = ingressFound table2 (Name md) →
  mutationRequired h ignoredList table1 (Some md)
  = mutationRequired h ignoredList table2 (Some md).
Proof.
  intros Heq. unfold mutationRequired.
  rewrite !admissionRequired_Some. cbn [mbind run_bind deref]. by rewrite Heq.
Qed.

Lemma createPatch_table (order : rangeOrder) name r table1 table2 (h : heap) :
  defaultAnnotationsForIngressName table1 name
  = defaultAnnotationsForIngressName table2 name →
  createPatch order name r table1 h = createPatch order name r table2 h.
Proof. intros Heq. by rewrite !createPatch_unfold, Heq. Qed.

(** An entry without a target name is stepped over. *)
Lemma lookups_skip_unnamed entry table name :
  entry !! "ingressName" = None →
  ingressFound (entry :: table) name = ingressFound table name
  ∧ defaultAnnotationsForIngressName (entry :: table) name
    = defaultAnnotationsForIngressName table name.
Proof. intros He. cbn. by rewrite He. Qed.

(** So is an entry whose name is a string that does not match. *)
Lemma lookups_skip_other entry table name :
  nameIsString entry = true → targets name entry = false →
  ingressFound (entry :: table) name = ingressFound table name
  ∧ defaultAnnotationsForIngressName (entry :: table) name
    = defaultAnnotationsForIngressName table name.
Proof.
  unfold nameIsString, targets. intros Hn Ht.
  cbn [ingressFound defaultAnnotationsForIngressName].
  destruct (entry !! "ingressName") as [v|]; [| done].
  destruct v; try discriminate. cbn [assertString mbind run_bind].
  apply bool_decide_eq_false in Ht. by rewrite !decide_False.
Qed.

(** The loops stop at an entry that targets the name. *)
Lemma lookups_stop entry table name :
  targets name entry = true →
  ingressFound (entry :: table) name = Returns true
  ∧ defaultAnnotationsForIngressName (entry :: table) name
    = assertMap (entry !! "defaultAnnotations").
Proof.
  unfold targets. intros Ht.
  cbn [ingressFound defaultAnnotationsForIngressName].
  destruct (entry !! "ingressName") as [v|]; [| done].
  destruct v; try discriminate. cbn [assertString mbind run_bind].
  apply bool_decide_eq_true in Ht. by rewrite !decide_True.
Qed.

Lemma lookups_skip_unnamed_middle before entry after name :
  entry !! "ingressName" = None →
  ingressFound (before ++ entry :: after) name = ingressFound (before ++ after) name
  ∧ defaultAnnotationsForIngressName (before ++ entry :: after) name
    = defaultAnnotationsForIngressName (before ++ after) name.
Proof.
  intros He. induction before as [|e before [IH1 IH2]].
  - by apply lookups_skip_unnamed.
  - cbn. rewrite IH1, IH2. done.
Qed.

Lemma lookups_first_match before entry after name :
  wellNamed before →
  Forall (λ e, targets name e = false) before →
  targets name entry = true →
  ingressFound (before ++ entry :: after) name = Returns true
  ∧ defaultAnnotationsForIngressName (before ++ entry :: after) name
    = assertMap (entry !! "defaultAnnotations").
Proof.
  intros Hwn Hno Ht. induction before as [|e before IH].
  - by apply lookups_stop.
  - apply wellNamed_cons in Hwn as [Hn Hwn].
    apply Forall_cons in Hno as [He Hno]. rewrite <- app_comm_cons.
    destruct (lookups_skip_other e ((before ++ entry :: after)%list) name Hn He)
      as [-> ->].
    by apply IH.
Qed.

Lemma ingressFound_firstMatch table name :
  wellNamed table →
  ingressFound table name = Returns (bool_decide (is_Some (firstMatch name table))).
Proof.
  intros Hwn. rewrite ingressFound_existsb by done. f_equal.
  unfold firstMatch. induction table as [|e table IH]; [done |].
  apply wellNamed_cons in Hwn as [_ Hwn]. cbn [existsb].
  destruct (targets name e) eqn:Ht.
  - rewrite filter_cons_True by done. cbn [orb head].
    symmetry. apply bool_decide_eq_true_2. by eexists.
  - rewrite filter_cons_False by by rewrite Ht. cbn [orb]. by apply IH.
Qed.

Lemma lookups_unnamed table name :
  Forall (λ e : gmap string json, e !! "ingressName" = None) table →
  ingressFound table name = Returns false
  ∧ defaultAnnotationsForIngressName table name = Returns ∅.
Proof.
  induction 1 as [|e table He _ [IH1 IH2]]; [done |].
  destruct (lookups_skip_unnamed e table name He) as [-> ->]. done.
Qed.

(** C6. In the lookup of [mutationRequired] and in that of [createPatch]:
    an entry without a target name is inert (a table of such entries
    matches nothing: no mutation, empty defaults) and is skipped (it can be
    taken out of the table, wherever it stands, without changing either
    result). When the entries before an entry that targets the name have
    string names and do not target it, that entry is the one used, whatever
    follows it: the decision loop finds a match, so that the decision is
    left to the namespace and the status; the synthesizer's loop yields the
    defaults of that entry, and on a live map the patch carries these
    defaults laid over the annotations. Two tables with string names whose
    first matching entry is the same give the same results. *)
Theorem first_match_wins (order : rangeOrder) (ignoredList : list string)
    (h : heap) (md : ObjectMeta) (r : mapref) :
  (∀ table,
     Forall (λ e : gmap string json, e !! "ingressName" = None) table →
     mutationRequired h ignoredList table (Some md) = Returns false
     ∧ defaultAnnotationsForIngressName table (Name md) = Returns ∅
     ∧ createPatch order (Name md) r table h
       = Returns ((addAnnotations (marshalMap h r), None), h))
  ∧ (∀ before entry after,
     entry !! "ingressName" = None →
     mutationRequired h ignoredList (before ++ entry :: after) (Some md)
     = mutationRequired h ignoredList (before ++ after) (Some md)
     ∧ createPatch order (Name md) r (before ++ entry :: after) h
       = createPatch order (Name md) r (before ++ after) h)
  ∧ (∀ before entry after,
       wellNamed before →
       Forall (λ e, targets (Name md) e = false) before →
       targets (Name md) entry = true →
       ingressFound (before ++ entry :: after) (Name md) = Returns true
       ∧ defaultAnnotationsForIngressName (before ++ entry :: after) (Name md)
         = assertMap (entry !! "defaultAnnotations")
       ∧ mutationRequired h ignoredList (before ++ entry :: after) (Some md)
         = Returns (bool_decide (Namespace md ∉ ignoredList)
                    && negb (bool_decide
                               (ToLower (default "" (contents h (Annotations md)
                                  !! admissionWebhookAnnotationStatusKey))
                                = "mutated")))
       ∧ (∀ (l : positive) m defaults,
            r = Some l → h !! l = Some m →
            entry !! "defaultAnnotations" = Some (JObject defaults) →
            wellTyped defaults →
            createPatch order (Name md) r (before ++ entry :: after) h
            = Returns ((addAnnotations
                          (JObject (JString <$> (stringsOf defaults ∪ m))), None),
                       <[l := stringsOf defaults ∪ m]> h))
       ∧ mutationRequired h ignoredList (before ++ entry :: after) (Some md)
         = mutationRequired h ignoredList [entry] (Some md)
       ∧ createPatch order (Name md) r (before ++ entry :: after) h
         = createPatch order (Name md) r [entry] h)
  ∧ (∀ table1 table2,
       wellNamed table1 → wellNamed table2 →
       firstMatch (Name md) table1 = firstMatch (Name md) table2 →
       mutationRequired h ignoredList table1 (Some md)
       = mutationRequired h ignoredList table2 (Some md)
       ∧ createPatch order (Name md) r table1 h
         = createPatch order (Name md) r table2 h).
Proof.
  split; [| split; [| split]].
  - intros table Hun.
    destruct (lookups_unnamed table (Name md) Hun) as [Hf Hd].
    split; [| split; [done |]].
    + unfold mutationRequired. rewrite admissionRequired_Some.
      cbn [mbind run_bind deref]. rewrite Hf. cbn [mbind run_bind].
      rewrite andb_false_r. by destruct (decide _).
    + by rewrite createPatch_unfold, Hd, visit_empty.
  - intros before entry after He.
    destruct (lookups_skip_unnamed_middle before entry after (Name md) He) as [Hf Hd].
    split; [by apply mutationRequired_found | by apply createPatch_table].
  - intros before entry after Hwn Hno Ht.
    destruct (lookups_first_match before entry after (Name md) Hwn Hno Ht) as [Hf Hd].
    destruct (lookups_stop entry [] (Name md) Ht) as [Hf1 Hd1].
    split; [done |]. split; [done |]. split; [| split; [| split]].
    + unfold mutationRequired. rewrite admissionRequired_Some.
      cbn [mbind run_bind deref]. rewrite Hf. cbn [mbind run_bind].
      rewrite andb_true_r.
      destruct (decide (ToLower (default "" (contents h (Annotations md)
                  !! admissionWebhookAnnotationStatusKey)) = "mutated")) as [Hs|Hs].
      * rewrite (bool_decide_eq_true_2 _ Hs). cbn [negb]. by rewrite andb_false_r.
      * rewrite (bool_decide_eq_false_2 _ Hs). cbn [negb]. by rewrite andb_true_r.
    + intros l m defaults -> Hl He Hwt.
      apply createPatch_merges; [| done | done]. by rewrite Hd, He.
    + apply mutationRequired_found. congruence.
    + apply createPatch_table. congruence.
  - intros table1 table2 Hwn1 Hwn2 Hfm. split.
    + apply mutationRequired_found.
      rewrite !ingressFound_firstMatch by done. by rewrite Hfm.
    + apply createPatch_table.
      rewrite !defaultAnnotationsForIngressName_firstMatch by done. by rewrite Hfm.
Qed.

End TableOrder.

(** ** Loading *)

Lemma mutationRequired_empty_table `{Unicode} (h : heap) ignoredList md :
  mutationRequired h ignoredList [] (Some md) = Returns false.
Proof.
  rewrite mutationRequired_eval by done. cbn [existsb].
  by rewrite andb_false_r.
Qed.

Lemma json_Unmarshal_objects (entries : list (gmap string json)) :
  json_Unmarshal (JSONText (JArray (JObject <$> entries))) = (entries, None).
Proof.
  unfold json_Unmarshal. f_equal.
  - rewrite <- !list_fmap_compose. rewrite <- (list_fmap_id entries) at 2.
    by apply list_fmap_ext.
  - rewrite <- !list_fmap_compose. unfold firstError.
    induction entries as [|e entries IH]; [done |].
    rewrite fmap_cons, filter_cons_False; [done |]. by intros [? ?].
Qed.

(** C7 (amended). Loading is a total function: no error reaches its caller.
    When the configuration file cannot be opened, or its bytes are not a
    JSON text, or they are a JSON value other than an array, the policy
    table is empty and [mutationRequired] then returns false on every
    object. *)
Theorem load_stores_nothing `{Unicode} (file : configFile) :
  storesNothing file = true →
  loadDefaultAnnotations file = []
  ∧ ∀ (h : heap) md,
      mutationRequired h ignoredNamespaces
        (defaultAnnotations (newWebhookServer file)) (Some md) = Returns false.
Proof.
  intros Hs.
  assert (Hload : loadDefaultAnnotations file = []).
  { destruct file as [|[|doc]]; [done | done |].
    destruct doc; try done. }
  split; [done |]. intros h md. cbn [newWebhookServer defaultAnnotations].
  rewrite Hload. apply mutationRequired_empty_table.
Qed.

(** C7 (as stated) fails: [json.Unmarshal] rejects the document (its second
    element is a number), [main] drops the error, and the table keeps the
    entry for test-ingress, for which [mutationRequired] returns true. *)
Lemma load_keeps_entries_of_rejected_document :
  (json_Unmarshal (JSONText brokenDocument)).2 = Some UnmarshalTypeError
  ∧ loadDefaultAnnotations (Opened (JSONText brokenDocument)) = [samplePolicy; ∅]
  ∧ @mutationRequired asciiOnly ∅ ignoredNamespaces
      (defaultAnnotations (newWebhookServer (Opened (JSONText brokenDocument))))
      (Some (sampleMeta None)) = Returns true.
Proof. split; [| split]; vm_compute; reflexivity. Qed.

Lemma load_stores_nothing_witness :
  loadDefaultAnnotations CannotOpen = []
  ∧ ∀ (h : gmap positive (gmap string string)) md,
      @mutationRequired asciiOnly h ignoredNamespaces
        (defaultAnnotations (newWebhookServer CannotOpen)) (Some md) = Returns false.
Proof. apply (@load_stores_nothing asciiOnly CannotOpen). reflexivity. Defined.

(** ** The request path *)

Section Requests.
Context `{Unicode}.

Lemma mutateObject_allows (order : rangeOrder) whsvr name objectMeta
    (h h' : heap) resp :
  mutateObject order whsvr name objectMeta h = Returns (resp, h') →
  Allowed resp = true ∧ Result resp = None.
Proof.
  unfold mutateObject, mbind, Go_bind, lift.
  destruct (mutationRequired h ignoredNamespaces (defaultAnnotations whsvr) objectMeta)
    as [[|]|p]; cbn [negb]; [| by intros [= <- _] | done].
  destruct (deref objectMeta) as [md|p]; [| done].
  destruct (createPatch order name (Annotations md) (defaultAnnotations whsvr) h)
    as [[[doc err] h1]|p] eqn:Hc; [| done].
  apply createPatch_no_error in Hc as ->. by intros [= <- _].
Qed.

Lemma json_Unmarshal_Ingress_error err (h : heap) :
  json_Unmarshal_Ingress (NotAnIngress err) h = Returns (inl err, h).
Proof. done. Qed.

Lemma json_Unmarshal_Ingress_ok f (h : heap) :
  ∃ md h1, json_Unmarshal_Ingress (IngressObject f) h = Returns (inr md, h1)
           ∧ Name md = ingressName f ∧ Namespace md = ingressNamespace f
           ∧ contents h1 (Annotations md) = default ∅ (ingressAnnotations f)
           ∧ (ingressAnnotations f = None ↔ Annotations md = None).
Proof.
  unfold json_Unmarshal_Ingress, mbind, Go_bind, allocate, newMap, mret, Go_ret.
  destruct (ingressLabels f) as [lab|], (ingressAnnotations f) as [ann|];
    eexists _, _; (split; [reflexivity |]); cbn [Name Namespace Annotations contents];
    repeat split; try done; by rewrite ?lookup_insert_eq.
Qed.

(** The responses of [mutate]: an allow, or the error of the decoder of the
    Ingress. *)
Lemma mutate_responses (order : rangeOrder) whsvr ar (h h' : heap) resp :
  mutate order whsvr ar h = Returns (resp, h') →
  (Allowed resp = true ∧ Result resp = None)
  ∨ (∃ req err, Request ar = Some req ∧ Kind req = "Ingress"
                ∧ Object req = NotAnIngress err
                ∧ resp = errorResponse err ∧ h' = h).
Proof.
  unfold mutate. destruct (Request ar) as [req|]; [| done].
  destruct (decide (Kind req = "Ingress")) as [Hk|Hk].
  - unfold mbind at 1, Go_bind.
    destruct (Object req) as [err|f] eqn:Ho.
    + rewrite json_Unmarshal_Ingress_error. intros [= <- <-].
      right. by exists req, err.
    + destruct (json_Unmarshal_Ingress_ok f h) as (md & h1 & -> & _).
      intros Hm. left. by eapply mutateObject_allows.
  - intros Hm. left. by eapply mutateObject_allows.
Qed.

End Requests.

Section Errors.
Context `{Unicode}.

Lemma serve_unfold (order : rangeOrder) whsvr r body (h : heap) :
  Body r = Some body → ContentType r = "application/json" →
  serve order whsvr r h
  = match body with
    | Undecodable err partial =>
        Returns (ReviewWritten
                   {| Request := None;
                      Response := Some (match Request partial with
                                        | Some req => withUID (UID req) (errorResponse err)
                                        | None => errorResponse err
                                        end) |}, h)
    | ReviewBytes ar =>
        if decide (URLPath r = "/mutate") then
          match mutate order whsvr ar h with
          | Returns (resp, h') =>
              Returns (ReviewWritten
                         {| Request := None;
                            Response := Some (match Request ar with
                                              | Some req => withUID (UID req) resp
                                              | None => resp
                                              end) |}, h')
          | Panics p => Panics p
          end
        else Returns (ReviewWritten {| Request := None; Response := None |}, h)
    end.
Proof.
  intros Hb Hc. unfold serve. rewrite Hb, Hc.
  rewrite decide_False by (intros Hne; by apply Hne).
  destruct body as [err partial|ar]; cbn [deserializer_Decode]; [done |].
  unfold mbind, Go_bind.
  destruct (decide (URLPath r = "/mutate")); [| done].
  by destruct (mutate order whsvr ar h) as [[resp h']|p].
Qed.

(** C8 (amended). A request that reaches the decoder (it has a body and
    the content type application/json) and whose body [deserializer.Decode]
    rejects is answered by a review whose response is not allowed and
    carries the decoder's message, no patch and no patch type; its UID is
    that of the request the decoder has left in the review, if any. On
    /mutate, a request of kind Ingress whose object [json.Unmarshal]
    rejects is answered the same way, with the UID of the request. In both
    cases the heap is left as it was. These are the only responses that are
    not an allow: every other response that [serve] writes is allowed and
    has no message. [serve] does not always write a response: a request
    without a body or with another content type gets an HTTP error (400,
    415) and no review, and a decoded review on a path other than /mutate
    gets a review without a response. *)
Theorem errors_are_reported (order : rangeOrder) (whsvr : WebhookServer)
    (r : httpRequest) (h : heap) :
  (∀ err partial,
     Body r = Some (Undecodable err partial) → ContentType r = "application/json" →
     ∃ resp,
       serve order whsvr r h
       = Returns (ReviewWritten {| Request := None; Response := Some resp |}, h)
       ∧ reportsError err resp
       ∧ ResponseUID resp = match Request partial with
                            | Some req => UID req
                            | None => ""
                            end)
  ∧ (∀ ar req err,
       Body r = Some (ReviewBytes ar) → ContentType r = "application/json" →
       URLPath r = "/mutate" →
       Request ar = Some req → Kind req = "Ingress" →
       Object req = NotAnIngress err →
       ∃ resp,
         serve order whsvr r h
         = Returns (ReviewWritten {| Request := None; Response := Some resp |}, h)
         ∧ reportsError err resp
         ∧ ResponseUID resp = UID req)
  ∧ (∀ review resp (h' : heap),
       serve order whsvr r h = Returns (ReviewWritten review, h') →
       Response review = Some resp →
       (Allowed resp = true ∧ Result resp = None)
       ∨ (h' = h
          ∧ ∃ err, reportsError err resp
              ∧ ((∃ partial, Body r = Some (Undecodable err partial))
                 ∨ (∃ ar req,
                      Body r = Some (ReviewBytes ar) ∧ URLPath r = "/mutate"
                      ∧ Request ar = Some req
                      ∧ Kind req = "Ingress" ∧ Object req = NotAnIngress err))))
  ∧ (Body r = None →
     serve order whsvr r h = Returns (HttpError "empty body" StatusBadRequest, h))
  ∧ (is_Some (Body r) → ContentType r ≠ "application/json" →
     serve order whsvr r h
     = Returns (HttpError "invalid Content-Type, expect `application/json`"
                  StatusUnsupportedMediaType, h))
  ∧ (∀ ar,
       Body r = Some (ReviewBytes ar) → ContentType r = "application/json" →
       URLPath r ≠ "/mutate" →
       serve order whsvr r h
       = Returns (ReviewWritten {| Request := None; Response := None |}, h)).
Proof.
  split; [| split; [| split; [| split; [| split]]]].
  - intros err partial Hb Hc. rewrite (serve_unfold _ _ _ _ _ Hb Hc).
    eexists. split; [reflexivity |]. by destruct (Request partial).
  - intros ar req err Hb Hc Hp Hr Hk Ho.
    assert (Hm : mutate order whsvr ar h = Returns (errorResponse err, h)).
    { unfold mutate. rewrite Hr, decide_True by done.
      unfold mbind, Go_bind. by rewrite Ho, json_Unmarshal_Ingress_error. }
    rewrite (serve_unfold _ _ _ _ _ Hb Hc), decide_True by done.
    rewrite Hm, Hr. eexists. split; [reflexivity |]. done.
  - intros review resp h' Hs Hresp.
    destruct (Body r) as [body|] eqn:Hb; [| by unfold serve in Hs; rewrite Hb in Hs].
    destruct (decide (ContentType r = "application/json")) as [Hc|Hc];
      [| by unfold serve in Hs; rewrite Hb, decide_True in Hs].
    rewrite (serve_unfold _ _ _ body _ Hb Hc) in Hs.
    destruct body as [err partial|ar].
    + injection Hs as <- <-. injection Hresp as <-.
      right. split; [done |]. exists err.
      split; [by destruct (Request partial) |]. left. by exists partial.
    + destruct (decide (URLPath r = "/mutate")) as [Hp|Hp]; [| by injection Hs as <- _].
      destruct (mutate order whsvr ar h) as [[resp0 h0]|p] eqn:Hm; [| done].
      injection Hs as <- <-. injection Hresp as <-.
      apply mutate_responses in Hm as [[Ha Hres] | (req & err & Hr & Hk & Ho & -> & ->)].
      * left. by destruct (Request ar).
      * right. split; [done |]. exists err. rewrite Hr. split; [done |].
        right. by exists ar, req.
  - intros Hb. unfold serve. by rewrite Hb.
  - intros [body Hb] Hc. unfold serve. by rewrite Hb, decide_True.
  - intros ar Hb Hc Hp. rewrite (serve_unfold _ _ _ _ _ Hb Hc).
    by rewrite decide_False.
Qed.

(** The nil pointer of [mutate]: for a kind other than Ingress the switch
    leaves [objectMeta] nil, and [admissionRequired] reads its namespace. *)
Lemma mutate_not_ingress (order : rangeOrder) whsvr ar req (h : heap) :
  Request ar = Some req → Kind req ≠ "Ingress" →
  mutate order whsvr ar h = Panics NilPointerDereference.
Proof.
  intros Hr Hk. unfold mutate. rewrite Hr, decide_False by done. done.
Qed.

End Errors.

(** C3. A review request of kind Pod: [mutate] does not answer with an
    allow without patch, it panics on the nil [objectMeta], whatever the
    policy table and the object. *)
Theorem mutate_pod_panics `{Unicode} (order : rangeOrder) (whsvr : WebhookServer)
    (object : rawObject) (h : heap) :
  mutate order whsvr (sampleReview "Pod" object) h = Panics NilPointerDereference.
Proof. by eapply mutate_not_ingress. Qed.

(** ** Panics of the mutation path *)

Section MutationPanics.
Context `{Unicode}.

Lemma mutateObject_unfold (order : rangeOrder) whsvr name md (h : heap) :
  mutateObject order whsvr name (Some md) h
  = match mutationRequired h ignoredNamespaces (defaultAnnotations whsvr) (Some md) with
    | Returns true =>
        match createPatch order name (Annotations md) (defaultAnnotations whsvr) h with
        | Returns ((doc, err), h') =>
            Returns (match err with
                     | Some e => errorResponse e
                     | None => patchResponse doc
                     end, h')
        | Panics p => Panics p
        end
    | Returns false => Returns (allowResponse, h)
    | Panics p => Panics p
    end.
Proof.
  unfold mutateObject, mbind, Go_bind, lift.
  destruct (mutationRequired h ignoredNamespaces (defaultAnnotations whsvr) (Some md))
    as [[|]|p]; cbn [negb deref]; [| done | done].
  destruct (createPatch order name (Annotations md) (defaultAnnotations whsvr) h)
    as [[[doc [e|]] h']|p]; done.
Qed.

Lemma mutate_ingress (order : rangeOrder) whsvr ar req f md (h h1 : heap) :
  Request ar = Some req → Kind req = "Ingress" → Object req = IngressObject f →
  json_Unmarshal_Ingress (IngressObject f) h = Returns (inr md, h1) →
  mutate order whsvr ar h = mutateObject order whsvr (Name md) (Some md) h1.
Proof.
  intros Hr Hk Ho Hu. unfold mutate. rewrite Hr, decide_True by done.
  unfold mbind, Go_bind. by rewrite Ho, Hu.
Qed.

Lemma firstMatch_targets name table entry :
  firstMatch name table = Some entry →
  entry ∈ table ∧ targets name entry = true.
Proof.
  unfold firstMatch. intros Hh. apply head_Some_elem_of in Hh.
  apply list_elem_of_filter in Hh. tauto.
Qed.

(** C9. An Ingress without annotations, outside the excluded namespaces,
    whose name is targeted by an entry with at least one default
    annotation: [mutationRequired] returns true (it reads the nil map as an
    empty one), [createPatch] receives the nil map of the object and panics
    when [updateAnnotation] assigns the first key, and so does [mutate]: no
    patch is returned. *)
Theorem absent_annotations_panic (order : rangeOrder) (whsvr : WebhookServer)
    (ar : AdmissionReview) (req : AdmissionRequest) (f : ingressFields)
    (h : heap) (entry defaults : gmap string json) :
  Request ar = Some req → Kind req = "Ingress" → Object req = IngressObject f →
  ingressAnnotations f = None →
  ingressNamespace f ∉ ignoredNamespaces →
  wellNamed (defaultAnnotations whsvr) →
  firstMatch (ingressName f) (defaultAnnotations whsvr) = Some entry →
  entry !! "defaultAnnotations" = Some (JObject defaults) →
  wellTyped defaults → defaults ≠ ∅ →
  ∃ md (h1 : heap),
    json_Unmarshal_Ingress (Object req) h = Returns (inr md, h1)
    ∧ Annotations md = None
    ∧ mutationRequired h1 ignoredNamespaces (defaultAnnotations whsvr) (Some md)
      = Returns true
    ∧ updateAnnotation order (Annotations md) defaults h1 = Panics AssignmentToNilMap
    ∧ createPatch order (Name md) (Annotations md) (defaultAnnotations whsvr) h1
      = Panics AssignmentToNilMap
    ∧ mutate order whsvr ar h = Panics AssignmentToNilMap.
Proof.
  intros Hr Hk Ho Hann Hns Hwn Hfm He Hwt Hne.
  destruct (json_Unmarshal_Ingress_ok f h)
    as (md & h1 & Hu & Hname & Hnamespace & Hcont & Hnil).
  apply Hnil in Hann as Hmd.
  assert (Hreq : mutationRequired h1 ignoredNamespaces (defaultAnnotations whsvr)
                   (Some md) = Returns true).
  { rewrite mutationRequired_eval by done. f_equal.
    rewrite Hnamespace, Hname, Hmd. cbn [contents].
    rewrite lookup_empty. cbn [default]. rewrite ToLower_empty.
    rewrite bool_decide_eq_true_2 by done.
    rewrite bool_decide_eq_false_2 by done.
    cbn [negb andb]. rewrite andb_true_r.
    apply existsb_exists. exists entry.
    apply firstMatch_targets in Hfm as [Hin Ht].
    split; [by apply list_elem_of_In | done]. }
  assert (Hd : defaultAnnotationsForIngressName (defaultAnnotations whsvr) (Name md)
               = Returns defaults).
  { rewrite defaultAnnotationsForIngressName_firstMatch by done.
    by rewrite Hname, Hfm, He. }
  assert (Hc : createPatch order (Name md) (Annotations md) (defaultAnnotations whsvr) h1
               = Panics AssignmentToNilMap).
  { rewrite Hmd, (createPatch_nil_map _ _ _ _ _ Hd Hwt). by rewrite decide_False. }
  exists md, h1. rewrite Ho. repeat split; try done.
  - rewrite createPatch_unfold, Hd in Hc. unfold updateAnnotation, mbind, Go_bind.
    destruct (assignAll (Annotations md) (order defaults) h1) as [[[] h2]|p];
      [discriminate | by injection Hc as ->].
  - rewrite (mutate_ingress _ _ _ _ _ _ _ _ Hr Hk Ho Hu).
    by rewrite mutateObject_unfold, Hreq, Hc.
Qed.

(** C10. A table of objects is stored by the loader as it is, without
    error. When the entry that targets the name has no "defaultAnnotations"
    field, or a field that is not an object, [createPatch] panics on the
    type assertion; when some default value is not a string,
    [updateAnnotation] panics on the type assertion once it reaches it (on
    a live map, whatever the order), and [createPatch] panics. None of them
    returns an error or steps over the entry. *)
Theorem unchecked_casts_panic (order : rangeOrder)
    (entries : list (gmap string json)) (name : string) (r : mapref)
    (h : heap) (entry : gmap string json) :
  wellNamed entries →
  firstMatch name entries = Some entry →
  json_Unmarshal (JSONText (JArray (JObject <$> entries))) = (entries, None)
  ∧ loadDefaultAnnotations (Opened (JSONText (JArray (JObject <$> entries)))) = entries
  ∧ (entry !! "defaultAnnotations" = None →
     createPatch order name r entries h = Panics InterfaceConversion)
  ∧ (∀ v, entry !! "defaultAnnotations" = Some v → (∀ m, v ≠ JObject m) →
       createPatch order name r entries h = Panics InterfaceConversion)
  ∧ (∀ defaults k v,
       entry !! "defaultAnnotations" = Some (JObject defaults) →
       defaults !! k = Some v → isString v = false →
       (∀ l, updateAnnotation order (Some l) defaults h = Panics InterfaceConversion
             ∧ createPatch order name (Some l) entries h = Panics InterfaceConversion)
       ∧ ∃ p, createPatch order name r entries h = Panics p).
Proof.
  intros Hwn Hfm.
  pose proof (defaultAnnotationsForIngressName_firstMatch entries name Hwn) as Hd.
  rewrite Hfm in Hd.
  split; [apply json_Unmarshal_objects |].
  split; [unfold loadDefaultAnnotations; by rewrite json_Unmarshal_objects |].
  split; [| split].
  - intros He. rewrite He in Hd. by rewrite createPatch_unfold, Hd.
  - intros v He Hv. rewrite He in Hd. rewrite createPatch_unfold, Hd.
    destruct v; try done. by destruct (Hv fields).
  - intros defaults k v He Hk Hv. rewrite He in Hd. cbn [assertMap] in Hd.
    pose proof (visit_not_wellTyped order defaults k v Hk Hv) as Hex.
    split.
    + intros l. split.
      * unfold updateAnnotation, mbind, Go_bind.
        by rewrite (assignAll_not_string l _ h Hex).
      * rewrite createPatch_unfold, Hd.
        by rewrite (assignAll_not_string l _ h Hex).
    + destruct r as [l|].
      * exists InterfaceConversion. rewrite createPatch_unfold, Hd.
        by rewrite (assignAll_not_string l _ h Hex).
      * eexists. rewrite createPatch_nil, Hd. rewrite decide_False; [done |].
        intros ->. by rewrite lookup_empty in Hk.
Qed.

End MutationPanics.

(** ** The properties at the sample data *)

Lemma default_not_ignored : "default" ∉ ignoredNamespaces.
Proof.
  intros Hin. unfold ignoredNamespaces in Hin.
  apply elem_of_cons in Hin as [Hin|Hin]; [discriminate |].
  apply elem_of_cons in Hin as [Hin|Hin]; [discriminate |].
  by apply elem_of_nil in Hin.
Defined.

Lemma mutationRequired_iff_witness :
  @mutationRequired asciiOnly sampleHeap ignoredNamespaces sampleTable
    (Some (sampleMeta (Some 1%positive))) = Returns true.
Proof.
  destruct (@mutationRequired_iff asciiOnly sampleHeap sampleTable
              (sampleMeta (Some 1%positive))) as [(required & Hrun & Hiff) _].
  - vm_compute. reflexivity.
  - rewrite Hrun. f_equal. apply Hiff. split; [| split].
    + apply default_not_ignored.
    + exists samplePolicy, "test-ingress".
      split; [apply list_elem_of_here |]. split; vm_compute; reflexivity.
    + intros (status & Hs & _). vm_compute in Hs. discriminate.
Defined.

Lemma first_match_wins_witness :
  @createPatch asciiOnly canonicalOrder "test-ingress" (Some 1%positive)
    ([unnamedPolicy; otherPolicy] ++ samplePolicy :: [shadowedPolicy]) sampleHeap
  = Returns ((addAnnotations
                (JObject (JString <$> (stringsOf sampleDefaults ∪ classAnnotations))),
              None),
             <[1%positive := stringsOf sampleDefaults ∪ classAnnotations]> sampleHeap).
Proof.
  destruct (@first_match_wins asciiOnly canonicalOrder ignoredNamespaces sampleHeap
              (sampleMeta (Some 1%positive)) (Some 1%positive))
    as (_ & _ & Hfirst & _).
  destruct (Hfirst [unnamedPolicy; otherPolicy] samplePolicy [shadowedPolicy])
    as (_ & _ & _ & Hpatch & _).
  - vm_compute. reflexivity.
  - repeat constructor; vm_compute; reflexivity.
  - vm_compute. reflexivity.
  - apply (Hpatch 1%positive classAnnotations sampleDefaults).
    + reflexivity.
    + vm_compute. reflexivity.
    + vm_compute. reflexivity.
    + apply sampleDefaults_wellTyped.
Defined.

Lemma errors_are_reported_witness :
  ∃ resp,
    @serve asciiOnly canonicalOrder sampleServer partlyDecodedRequest ∅
    = Returns (ReviewWritten {| Request := None; Response := Some resp |}, ∅)
    ∧ Allowed resp = false ∧ Result resp = Some "unknown field"
    ∧ Patch resp = None
    ∧ ResponseUID resp = "705ab4f5-6393-11e8-b7cc-42010a800002".
Proof.
  destruct (@errors_are_reported asciiOnly canonicalOrder sampleServer
              partlyDecodedRequest ∅) as (Hdecode & _).
  destruct (Hdecode "unknown field" (sampleReview "Ingress" (NotAnIngress ""))
              eq_refl eq_refl) as (resp & Hs & (Ha & Hr & Hp & _) & Hu).
  exists resp. repeat split; assumption.
Defined.

(** C8 (as stated) fails: the review of test-ingress sent to /validate is
    answered by a review without any response, and a request without a
    body by an HTTP error without a review; neither is an allow, and
    neither is a decoding error. *)
Lemma serve_answers_without_allow :
  @serve asciiOnly canonicalOrder sampleServer validateRequest ∅
  = Returns (ReviewWritten {| Request := None; Response := None |}, ∅)
  ∧ @serve asciiOnly canonicalOrder sampleServer bodylessRequest ∅
    = Returns (HttpError "empty body" StatusBadRequest, ∅).
Proof. split; vm_compute; reflexivity. Qed.

Lemma absent_annotations_panic_witness :
  @mutate asciiOnly canonicalOrder sampleServer
    (sampleReview "Ingress" (IngressObject (sampleIngress None))) ∅
  = Panics AssignmentToNilMap.
Proof.
  destruct (@absent_annotations_panic asciiOnly canonicalOrder sampleServer
              (sampleReview "Ingress" (IngressObject (sampleIngress None)))
              {| UID := "705ab4f5-6393-11e8-b7cc-42010a800002"; Kind := "Ingress";
                 Operation := "CREATE";
                 Object := IngressObject (sampleIngress None) |}
              (sampleIngress None) ∅ samplePolicy sampleDefaults)
    as (md & h1 & _ & _ & _ & _ & _ & Hm);
    [reflexivity | reflexivity | reflexivity | reflexivity
    | apply default_not_ignored
    | vm_compute; reflexivity | vm_compute; reflexivity | vm_compute; reflexivity
    | apply sampleDefaults_wellTyped | apply sampleDefaults_nonempty | exact Hm].
Defined.

Lemma unchecked_casts_panic_witness :
  @createPatch asciiOnly canonicalOrder "test-ingress" (Some 1%positive)
    [barePolicy] sampleHeap = Panics InterfaceConversion
  ∧ @createPatch asciiOnly canonicalOrder "test-ingress" (Some 1%positive)
      [numericPolicy] sampleHeap = Panics InterfaceConversion.
Proof.
  split.
  - destruct (@unchecked_casts_panic asciiOnly canonicalOrder [barePolicy]
                "test-ingress" (Some 1%positive) sampleHeap barePolicy)
      as (_ & _ & Hmissing & _);
      [vm_compute; reflexivity | vm_compute; reflexivity |].
    apply Hmissing. vm_compute. reflexivity.
  - destruct (@unchecked_casts_panic asciiOnly canonicalOrder [numericPolicy]
                "test-ingress" (Some 1%positive) sampleHeap numericPolicy)
      as (_ & _ & _ & _ & Hvalue);
      [vm_compute; reflexivity | vm_compute; reflexivity |].
    destruct (Hvalue numericDefaults "ingress.citrix.com/secure-port"
                (JNumber "4443")) as [Hlive _];
      [vm_compute; reflexivity | vm_compute; reflexivity | reflexivity |].
    apply Hlive.
Defined.

(** ** The scenarios of the specification *)

(** A policy entry for "Class1" matches an object named class1. *)
Example case_insensitive_match :
  @targets asciiOnly "class1" {[ "ingressName" := JString "Class1" ]} = true.
Proof. vm_compute. reflexivity. Qed.

(** test-ingress in namespace default with an empty annotation map: the
    response is an allow whose patch adds the two port annotations. *)
Example scenario_patch :
  ∃ h1, @mutate asciiOnly canonicalOrder sampleServer
          (sampleReview "Ingress" (IngressObject (sampleIngress (Some ∅)))) ∅
        = Returns (patchResponse (addAnnotations
                     (JObject (JString <$> stringsOf sampleDefaults))), h1).
Proof. eexists. vm_compute. reflexivity. Qed.

(** other-ingress: no mutation, the response carries no patch. *)
Example scenario_other_ingress :
  ∃ h1, @mutate asciiOnly canonicalOrder sampleServer
          (sampleReview "Ingress"
             (IngressObject {| ingressName := "other-ingress";
                               ingressNamespace := "default";
                               ingressLabels := None;
                               ingressAnnotations := Some ∅ |})) ∅
        = Returns (allowResponse, h1).
Proof. eexists. vm_compute. reflexivity. Qed.

(** The patch does not set the status marker: on the patched object the
    decision is still to mutate, until something else sets the marker. *)
Example patched_object_still_required :
  @mutationRequired asciiOnly
    {[ 1%positive := stringsOf sampleDefaults ∪ classAnnotations ]}
    ignoredNamespaces sampleTable (Some (sampleMeta (Some 1%positive)))
  = Returns true.
Proof. vm_compute. reflexivity. Qed.

(** * Further properties of the code *)

(** ** admissionRequired and validationRequired *)

(** X1. [admissionRequired] looks at the namespace only: the annotation key it
    is given has no effect, and it answers whether the namespace is outside
    the ignored list. It reads the object only while comparing, so on a nil
    object it panics when the list has an element and returns true when
    the list is empty. [validationRequired] gives the same answer for an
    object, and panics on a nil object whatever the list: it reads the
    namespace and the name for its log line. *)
Theorem admission_by_namespace_only (ignoredList : list string) (key1 key2 : string)
    (metadata : option ObjectMeta) :
  admissionRequired ignoredList key1 metadata
  = admissionRequired ignoredList key2 metadata
  ∧ admissionRequired ignoredList key1 metadata
    = match metadata with
      | Some md => Returns (bool_decide (Namespace md ∉ ignoredList))
      | None => if decide (ignoredList = []) then Returns true
                else Panics NilPointerDereference
      end
  ∧ validationRequired ignoredList metadata
    = match metadata with
      | Some md => Returns (bool_decide (Namespace md ∉ ignoredList))
      | None => Panics NilPointerDereference
      end.
Proof.
  split; [| split].
  - destruct metadata as [md|].
    + by rewrite !admissionRequired_Some.
    + by destruct ignoredList.
  - destruct metadata as [md|].
    + apply admissionRequired_Some.
    + by destruct ignoredList.
  - unfold validationRequired. destruct metadata as [md|].
    + by rewrite admissionRequired_Some.
    + by destruct ignoredList.
Qed.

(** ** The two lookups *)

Section Lookups.
Context `{Unicode}.

Lemma existsb_firstMatch name table :
  existsb (targets name) table = bool_decide (is_Some (firstMatch name table)).
Proof.
  unfold firstMatch. induction table as [|e table IH]; [done |].
  cbn [existsb]. destruct (targets name e) eqn:Ht.
  - rewrite filter_cons_True by done. cbn [orb head].
    symmetry. apply bool_decide_eq_true_2. by eexists.
  - rewrite filter_cons_False by by rewrite Ht. cbn [orb]. by apply IH.
Qed.

Lemma mutationRequired_shouldMutate (h : heap) ignoredList table md :
  wellNamed table →
  mutationRequired h ignoredList table (Some md)
  = Returns (shouldMutate ignoredList table (Namespace md) (Name md)
               (contents h (Annotations md))).
Proof.
  intros Hwn. rewrite mutationRequired_eval by done.
  unfold shouldMutate. by rewrite existsb_firstMatch.
Qed.

(** X2. The lookup of [createPatch] re-resolves what the lookup of
    [mutationRequired] found, on any table: where the decision loop finds a
    match, the synthesizer takes the defaults of an entry of the table that
    targets the name; where it finds none, the defaults are empty; where it
    panics, so does the synthesizer, with the same panic. *)
Theorem lookups_agree (table : list (gmap string json)) (name : string) :
  match ingressFound table name with
  | Returns true =>
      ∃ entry, entry ∈ table ∧ targets name entry = true
               ∧ defaultAnnotationsForIngressName table name
                 = assertMap (entry !! "defaultAnnotations")
  | Returns false => defaultAnnotationsForIngressName table name = Returns ∅
  | Panics p => defaultAnnotationsForIngressName table name = Panics p
  end.
Proof.
  induction table as [|dflt rest IH]; [done |].
  cbn [ingressFound defaultAnnotationsForIngressName].
  destruct (dflt !! "ingressName") as [v|] eqn:He.
  - destruct v; try done. cbn [assertString mbind run_bind].
    destruct (decide (ToLower s = ToLower name)) as [Heq|Hne].
    + exists dflt. split; [apply list_elem_of_here |]. split; [| done].
      unfold targets. rewrite He. by apply bool_decide_eq_true.
    + destruct (ingressFound rest name) as [[|]|p]; [| done | done].
      destruct IH as (entry & Hin & Ht & Hd). exists entry.
      split; [by apply list_elem_of_further | done].
  - destruct (ingressFound rest name) as [[|]|p]; [| done | done].
    destruct IH as (entry & Hin & Ht & Hd). exists entry.
    split; [by apply list_elem_of_further | done].
Qed.

(** Both lookups see the name through [strings.ToLower] only. *)
Lemma lookups_lowercase table name1 name2 :
  ToLower name1 = ToLower name2 →
  ingressFound table name1 = ingressFound table name2
  ∧ defaultAnnotationsForIngressName table name1
    = defaultAnnotationsForIngressName table name2.
Proof.
  intros Heq. induction table as [|dflt rest [IH1 IH2]]; [done |].
  cbn [ingressFound defaultAnnotationsForIngressName].
  destruct (dflt !! "ingressName") as [v|]; [| done].
  destruct v; try done. cbn [assertString mbind run_bind].
  rewrite Heq, IH1, IH2. done.
Qed.

(** X3. Two objects whose names differ only in case, in the same namespace and
    with the same annotations, get the same decision, and the synthesizer
    builds the same patch for both names. *)
Theorem names_differing_in_case (order : rangeOrder) (ignoredList : list string)
    (table : list (gmap string json)) (h : heap) (md1 md2 : ObjectMeta) (r : mapref) :
  ToLower (Name md1) = ToLower (Name md2) →
  Namespace md1 = Namespace md2 →
  Annotations md1 = Annotations md2 →
  mutationRequired h ignoredList table (Some md1)
  = mutationRequired h ignoredList table (Some md2)
  ∧ createPatch order (Name md1) r table h = createPatch order (Name md2) r table h.
Proof.
  intros Hname Hns Hann.
  destruct (lookups_lowercase table _ _ Hname) as [Hf Hd]. split.
  - unfold mutationRequired. rewrite !admissionRequired_Some.
    cbn [mbind run_bind deref]. by rewrite Hns, Hann, Hf.
  - by rewrite !createPatch_unfold, Hd.
Qed.

(** X4. When no entry targets the name, [createPatch] still returns a patch:
    one "add" operation whose value is the annotation map as it is (null
    for the nil map). Nothing is written. *)
Theorem createPatch_without_match (order : rangeOrder) (name : string) (r : mapref)
    (table : list (gmap string json)) (h : heap) :
  wellNamed table →
  firstMatch name table = None →
  createPatch order name r table h
  = Returns ((addAnnotations (marshalMap h r), None), h).
Proof.
  intros Hwn Hfm. rewrite createPatch_unfold.
  rewrite defaultAnnotationsForIngressName_firstMatch, Hfm by done.
  by rewrite visit_empty.
Qed.

End Lookups.

Lemma names_differing_in_case_witness :
  @mutationRequired asciiOnly sampleHeap ignoredNamespaces sampleTable
    (Some {| Name := "Test-INGRESS"; Namespace := "default"; Labels := None;
             Annotations := Some 1%positive |})
  = @mutationRequired asciiOnly sampleHeap ignoredNamespaces sampleTable
      (Some (sampleMeta (Some 1%positive))).
Proof.
  apply (@names_differing_in_case asciiOnly canonicalOrder ignoredNamespaces
           sampleTable sampleHeap
           {| Name := "Test-INGRESS"; Namespace := "default"; Labels := None;
              Annotations := Some 1%positive |}
           (sampleMeta (Some 1%positive)) None);
    vm_compute; reflexivity.
Defined.

Lemma createPatch_without_match_witness :
  @createPatch asciiOnly canonicalOrder "other-ingress" None sampleTable sampleHeap
  = Returns ((addAnnotations JNull, None), sampleHeap).
Proof.
  apply (@createPatch_without_match asciiOnly canonicalOrder "other-ingress" None
           sampleTable sampleHeap); vm_compute; reflexivity.
Defined.

(** ** What the loader hands to the lookups *)

Section LoadedTable.
Context `{Unicode}.

Lemma lookups_cons entry table1 table2 name :
  ingressFound table1 name = ingressFound table2 name →
  defaultAnnotationsForIngressName table1 name
  = defaultAnnotationsForIngressName table2 name →
  ingressFound (entry :: table1) name = ingressFound (entry :: table2) name
  ∧ defaultAnnotationsForIngressName (entry :: table1) name
    = defaultAnnotationsForIngressName (entry :: table2) name.
Proof.
  intros Hf Hd. cbn [ingressFound defaultAnnotationsForIngressName].
  by rewrite Hf, Hd.
Qed.

Lemma loaded_lookups items name :
  ingressFound (loadDefaultAnnotations (Opened (JSONText (JArray items)))) name
  = ingressFound (objectsOf items) name
  ∧ defaultAnnotationsForIngressName
      (loadDefaultAnnotations (Opened (JSONText (JArray items)))) name
    = defaultAnnotationsForIngressName (objectsOf items) name.
Proof.
  unfold loadDefaultAnnotations, json_Unmarshal, objectsOf. cbn [fst].
  induction items as [|item items [IH1 IH2]]; [done |].
  rewrite !fmap_cons. cbn [omap list_omap].
  destruct item; cbn [unmarshalEntry fst];
    try (destruct (lookups_skip_unnamed ∅ (fst <$> (unmarshalEntry <$> items)) name)
           as [-> ->]; [apply lookup_empty | done]).
  by apply lookups_cons.
Qed.

(** X5. The table that [main] loads from a JSON array has one entry per element
    of the array. The entries that come from elements that are not objects
    are inert: [mutationRequired] and [createPatch] give, on the loaded
    table, what they give on the table of the object elements alone. *)
Theorem loaded_table_objects_only (order : rangeOrder) (items : list json)
    (ignoredList : list string) (h : heap) (md : ObjectMeta) (r : mapref) :
  List.length (loadDefaultAnnotations (Opened (JSONText (JArray items))))
  = List.length items
  ∧ mutationRequired h ignoredList
      (loadDefaultAnnotations (Opened (JSONText (JArray items)))) (Some md)
    = mutationRequired h ignoredList (objectsOf items) (Some md)
  ∧ createPatch order (Name md) r
      (loadDefaultAnnotations (Opened (JSONText (JArray items)))) h
    = createPatch order (Name md) r (objectsOf items) h.
Proof.
  destruct (loaded_lookups items (Name md)) as [Hf Hd]. split; [| split].
  - unfold loadDefaultAnnotations, json_Unmarshal. cbn [fst].
    by rewrite !length_fmap.
  - by apply mutationRequired_found.
  - by apply createPatch_table.
Qed.

End LoadedTable.

(** ** What a call leaves untouched *)

Section Frame.
Context `{Unicode}.

Lemma assignAll_frame (r : mapref) entries (h h' : heap) u :
  assignAll r entries h = Returns (u, h') →
  ∀ l, r ≠ Some l → h' !! l = h !! l.
Proof.
  revert h. induction entries as [|[k v] rest IH]; intros h Hrun l Hl.
  - by injection Hrun as _ <-.
  - cbn [assignAll] in Hrun. unfold mbind, Go_bind in Hrun.
    destruct v; try done. cbn [lift assertString mapAssign] in Hrun.
    destruct r as [l0|]; [| done].
    rewrite (IH _ Hrun l Hl). apply lookup_insert_ne. congruence.
Qed.

Lemma createPatch_frame (order : rangeOrder) name (r : mapref) table (h h' : heap) out :
  createPatch order name r table h = Returns (out, h') →
  ∀ l, r ≠ Some l → h' !! l = h !! l.
Proof.
  rewrite createPatch_unfold.
  destruct (defaultAnnotationsForIngressName table name) as [dflts|p]; [| done].
  destruct (assignAll r (order dflts) h) as [[[] h1]|p] eqn:Ha; [| done].
  intros [= _ <-]. by eapply assignAll_frame.
Qed.

(** The maps of the decoded object are new: they are at locations the heap
    did not hold, and the maps it held are as they were. *)
Lemma json_Unmarshal_Ingress_fresh f (h : heap) :
  ∃ md (h1 : heap),
    json_Unmarshal_Ingress (IngressObject f) h = Returns (inr md, h1)
    ∧ Name md = ingressName f ∧ Namespace md = ingressNamespace f
    ∧ match ingressAnnotations f with
      | None => Annotations md = None
      | Some a => ∃ l, Annotations md = Some l ∧ h !! l = None ∧ h1 !! l = Some a
      end
    ∧ contents h1 (Annotations md) = default ∅ (ingressAnnotations f)
    ∧ (∀ l, is_Some (h !! l) → h1 !! l = h !! l).
Proof.
  unfold json_Unmarshal_Ingress, mbind, Go_bind, allocate, newMap, mret, Go_ret.
  assert (Hfresh : ∀ g : heap, g !! fresh (dom g) = None).
  { intros g. apply not_elem_of_dom. apply is_fresh. }
  assert (Hold : ∀ (g : heap) l, is_Some (g !! l) → l ≠ fresh (dom g)).
  { intros g l [x Hx] ->. by rewrite Hfresh in Hx. }
  destruct (ingressLabels f) as [lab|], (ingressAnnotations f) as [ann|];
    eexists _, _; (split; [reflexivity |]); cbn [Name Namespace Annotations contents].
  - set (l1 := fresh (dom h)). set (h0 := (<[l1 := lab]> h : heap)).
    repeat split; try done.
    + exists (fresh (dom h0)). split; [done |]. split; [| apply lookup_insert_eq].
      pose proof (Hfresh h0) as Hn. unfold h0 in Hn at 2.
      apply lookup_insert_None in Hn. tauto.
    + by rewrite lookup_insert_eq.
    + intros l Hl. rewrite lookup_insert_ne.
      * apply lookup_insert_ne. pose proof (Hold h l Hl). done.
      * apply not_eq_sym, Hold. unfold h0. rewrite lookup_insert_ne; [done |].
        pose proof (Hold h l Hl). done.
  - repeat split; try done.
    intros l Hl. apply lookup_insert_ne. pose proof (Hold h l Hl). done.
  - repeat split; try done.
    + exists (fresh (dom h)). split; [done |]. split; [apply Hfresh | apply lookup_insert_eq].
    + by rewrite lookup_insert_eq.
    + intros l Hl. apply lookup_insert_ne. pose proof (Hold h l Hl). done.
  - repeat split; done.
Qed.

Lemma mutateObject_frame (order : rangeOrder) whsvr name md (h h' : heap) resp :
  mutateObject order whsvr name (Some md) h = Returns (resp, h') →
  ∀ l, Annotations md ≠ Some l → h' !! l = h !! l.
Proof.
  rewrite mutateObject_unfold.
  destruct (mutationRequired h ignoredNamespaces (defaultAnnotations whsvr) (Some md))
    as [[|]|p]; [| by intros [= _ <-] | done].
  destruct (createPatch order name (Annotations md) (defaultAnnotations whsvr) h)
    as [[[doc err] h1]|p] eqn:Hc; [| done].
  intros [= _ <-]. by eapply createPatch_frame.
Qed.

(** X6. Requests are isolated from each other: when [mutate] returns, every map
    that was in the heap before the call holds what it held; [mutate] writes
    only to the maps of the object it has just decoded. *)
Theorem mutate_keeps_existing_maps (order : rangeOrder) (whsvr : WebhookServer)
    (ar : AdmissionReview) (h h' : heap) (resp : AdmissionResponse) :
  mutate order whsvr ar h = Returns (resp, h') →
  ∀ l, is_Some (h !! l) → h' !! l = h !! l.
Proof.
  intros Hm l Hl. unfold mutate in Hm.
  destruct (Request ar) as [req|]; [| done].
  destruct (decide (Kind req = "Ingress")); [| done].
  unfold mbind at 1, Go_bind in Hm.
  destruct (Object req) as [err|f].
  - rewrite json_Unmarshal_Ingress_error in Hm. by injection Hm as _ <-.
  - destruct (json_Unmarshal_Ingress_fresh f h)
      as (md & h1 & Hu & _ & _ & Hann & _ & Hframe).
    rewrite Hu in Hm. rewrite (mutateObject_frame _ _ _ _ _ _ _ Hm).
    + by apply Hframe.
    + destruct (ingressAnnotations f) as [a|].
      * destruct Hann as (l0 & -> & Hnone & _). intros [= ->].
        destruct Hl as [x Hx]. by rewrite Hnone in Hx.
      * by rewrite Hann.
Qed.

End Frame.

Lemma mutate_keeps_existing_maps_witness :
  ∃ resp h',
    @mutate asciiOnly canonicalOrder sampleServer
      (sampleReview "Ingress" (IngressObject (sampleIngress (Some submittedAnnotations))))
      sampleHeap = Returns (resp, h')
    ∧ h' !! 1%positive = sampleHeap !! 1%positive.
Proof.
  destruct (@mutate asciiOnly canonicalOrder sampleServer
              (sampleReview "Ingress"
                 (IngressObject (sampleIngress (Some submittedAnnotations))))
              sampleHeap) as [[resp h']|p] eqn:Hm.
  - exists resp, h'. split; [reflexivity |].
    apply (@mutate_keeps_existing_maps asciiOnly canonicalOrder sampleServer _ _ _ _ Hm).
    vm_compute. eauto.
  - vm_compute in Hm. discriminate.
Defined.

(** ** mutate on an Ingress *)

Section MutateCases.
Context `{Unicode}.

Lemma tableOK_wellNamed table : tableOK table → wellNamed table.
Proof.
  unfold tableOK, wellNamed. rewrite !forallb_forall. intros Hok e Hin.
  specialize (Hok e Hin). unfold policyOK in Hok. unfold nameIsString.
  destruct (e !! "ingressName") as [v|]; [| done]. by destruct v.
Qed.

Lemma tableOK_firstMatch table name entry :
  tableOK table → firstMatch name table = Some entry →
  ∃ defaults, entry !! "defaultAnnotations" = Some (JObject defaults)
              ∧ wellTyped defaults.
Proof.
  intros Hok Hfm. apply firstMatch_targets in Hfm as [Hin Ht].
  unfold tableOK in Hok. rewrite forallb_forall in Hok.
  apply list_elem_of_In in Hin. specialize (Hok entry Hin).
  unfold targets in Ht. unfold policyOK in Hok.
  destruct (entry !! "ingressName") as [v|]; [| done].
  destruct v; try done.
  destruct (entry !! "defaultAnnotations") as [d|]; [| done].
  destruct d; try done. exists fields. split; [done |].
  by apply bool_decide_eq_true in Hok.
Qed.

(** [mutate] on a request of kind Ingress whose object decodes: the
    decision, then the patch. *)
Lemma mutate_on_ingress (order : rangeOrder) whsvr ar req f (h : heap) :
  Request ar = Some req → Kind req = "Ingress" → Object req = IngressObject f →
  wellNamed (defaultAnnotations whsvr) →
  ∃ md (h1 : heap),
    Name md = ingressName f
    ∧ match ingressAnnotations f with
      | None => Annotations md = None
      | Some a => ∃ l, Annotations md = Some l ∧ h !! l = None ∧ h1 !! l = Some a
      end
    ∧ (∀ l, is_Some (h !! l) → h1 !! l = h !! l)
    ∧ mutate order whsvr ar h
      = if shouldMutate ignoredNamespaces (defaultAnnotations whsvr)
             (ingressNamespace f) (ingressName f) (default ∅ (ingressAnnotations f))
        then match createPatch order (Name md) (Annotations md)
                     (defaultAnnotations whsvr) h1 with
             | Returns ((doc, _), h2) => Returns (patchResponse doc, h2)
             | Panics p => Panics p
             end
        else Returns (allowResponse, h1).
Proof.
  intros Hr Hk Ho Hwn.
  destruct (json_Unmarshal_Ingress_fresh f h)
    as (md & h1 & Hu & Hname & Hns & Hann & Hcont & Hframe).
  exists md, h1. repeat split; try done.
  rewrite (mutate_ingress _ _ _ _ _ _ _ _ Hr Hk Ho Hu), mutateObject_unfold.
  rewrite mutationRequired_shouldMutate by done. rewrite Hname, Hns, Hcont.
  destruct (shouldMutate _ _ _ _ _); [| done].
  destruct (createPatch order (ingressName f) (Annotations md)
              (defaultAnnotations whsvr) h1) as [[[doc err] h2]|p] eqn:Hc; [| done].
  by apply createPatch_no_error in Hc as ->.
Qed.

Lemma shouldMutate_false excluded table namespace name annotations :
  shouldMutate excluded table namespace name annotations = false ↔
  namespace ∈ excluded ∨ firstMatch name table = None ∨ alreadyMutated annotations.
Proof.
  unfold shouldMutate.
  rewrite !andb_false_iff, negb_false_iff, bool_decide_eq_true,
    !bool_decide_eq_false, status_mutated.
  rewrite <- eq_None_not_Some.
  split; [intros [[Hn|Hf]|Hm] | intros [Hn|[Hf|Hm]]]; try tauto.
  left. destruct (decide (namespace ∈ excluded)); tauto.
Qed.

(** X7. An Ingress is let through without a patch exactly when its namespace is
    ignored, or no entry targets its name, or it carries the "mutated"
    status: then the response is the plain allow, also for an object
    without annotations and whatever the defaults of the table are. *)
Theorem mutate_allows_without_patch (order : rangeOrder) (whsvr : WebhookServer)
    (ar : AdmissionReview) (req : AdmissionRequest) (f : ingressFields) (h : heap) :
  Request ar = Some req → Kind req = "Ingress" → Object req = IngressObject f →
  wellNamed (defaultAnnotations whsvr) →
  (∃ h1 : heap, mutate order whsvr ar h = Returns (allowResponse, h1))
  ↔ (ingressNamespace f ∈ ignoredNamespaces
     ∨ firstMatch (ingressName f) (defaultAnnotations whsvr) = None
     ∨ alreadyMutated (default ∅ (ingressAnnotations f))).
Proof.
  intros Hr Hk Ho Hwn.
  destruct (mutate_on_ingress order whsvr ar req f h Hr Hk Ho Hwn)
    as (md & h1 & _ & _ & _ & Hm).
  rewrite <- shouldMutate_false, Hm.
  destruct (shouldMutate _ _ _ _ _).
  - split; [| done]. intros [h2 Hrun].
    destruct (createPatch order (Name md) (Annotations md)
                (defaultAnnotations whsvr) h1) as [[[doc err] h3]|p]; [| done].
    by injection Hrun as Hpatch _.
  - split; [done |]. intros _. by exists h1.
Qed.

(** X8. Policy precedence, end to end: for an Ingress with annotations that is
    to be mutated, [mutate] allows the request with a JSON patch of one
    "add" operation at /metadata/annotations. Its value has, for every key
    of the matched entry's defaults, the policy's value, also where the
    submitter had set another one, and for every other key what the
    submitter had set. *)
Theorem mutate_patches_with_policy_values (order : rangeOrder) (whsvr : WebhookServer)
    (ar : AdmissionReview) (req : AdmissionRequest) (f : ingressFields) (h : heap)
    (a : gmap string string) (entry defaults : gmap string json) :
  Request ar = Some req → Kind req = "Ingress" → Object req = IngressObject f →
  ingressAnnotations f = Some a →
  wellNamed (defaultAnnotations whsvr) →
  ingressNamespace f ∉ ignoredNamespaces →
  firstMatch (ingressName f) (defaultAnnotations whsvr) = Some entry →
  entry !! "defaultAnnotations" = Some (JObject defaults) →
  wellTyped defaults →
  ¬ alreadyMutated a →
  ∃ (merged : gmap string string) (h2 : heap),
    mutate order whsvr ar h
    = Returns (patchResponse (addAnnotations (JObject (JString <$> merged))), h2)
    ∧ (∀ k s, defaults !! k = Some (JString s) → merged !! k = Some s)
    ∧ (∀ k, defaults !! k = None → merged !! k = a !! k)
    ∧ applyPatch (addAnnotations (JObject (JString <$> merged))) (Some a)
      = Some (Some merged).
Proof.
  intros Hr Hk Ho Ha Hwn Hns Hfm He Hwt Hnm.
  destruct (mutate_on_ingress order whsvr ar req f h Hr Hk Ho Hwn)
    as (md & h1 & Hname & Hann & _ & Hm).
  rewrite Ha in Hann, Hm. destruct Hann as (l & Hl & _ & Hl1).
  assert (Hs : shouldMutate ignoredNamespaces (defaultAnnotations whsvr)
                 (ingressNamespace f) (ingressName f) (default ∅ (Some a)) = true).
  { apply not_false_iff_true. rewrite shouldMutate_false.
    intros [Hn|[Hf|Hmut]]; [done | congruence | done]. }
  rewrite Hs, Hl in Hm.
  assert (Hd : defaultAnnotationsForIngressName (defaultAnnotations whsvr) (Name md)
               = Returns defaults).
  { rewrite defaultAnnotationsForIngressName_firstMatch by done.
    by rewrite Hname, Hfm, He. }
  rewrite (createPatch_merges _ _ _ _ _ _ _ Hd Hwt Hl1) in Hm.
  exists (stringsOf defaults ∪ a), (<[l := stringsOf defaults ∪ a]> h1).
  split; [done |]. split; [| split].
  - intros k s Hks. apply lookup_union_Some_l. by apply lookup_stringsOf_string.
  - intros k Hk0. apply lookup_union_r. by apply lookup_stringsOf_None.
  - apply applyPatch_addAnnotations.
Qed.

(** X9. With a policy table typed as the data model says, [mutate] panics in
    exactly three situations: the review has no request; the kind is not
    Ingress; or the Ingress has no annotations, is in a namespace that is
    not ignored, and the entry that targets it has at least one default. *)
Theorem mutate_panics_exactly (order : rangeOrder) (whsvr : WebhookServer)
    (ar : AdmissionReview) (h : heap) :
  tableOK (defaultAnnotations whsvr) →
  (∃ p, mutate order whsvr ar h = Panics p)
  ↔ (Request ar = None
     ∨ ∃ req, Request ar = Some req
         ∧ (Kind req ≠ "Ingress"
            ∨ (Kind req = "Ingress"
               ∧ ∃ f entry defaults,
                   Object req = IngressObject f
                   ∧ ingressAnnotations f = None
                   ∧ (ingressNamespace f ∉ ignoredNamespaces)
                   ∧ firstMatch (ingressName f) (defaultAnnotations whsvr) = Some entry
                   ∧ entry !! "defaultAnnotations" = Some (JObject defaults)
                   ∧ defaults ≠ ∅))).
Proof.
  intros Hok. pose proof (tableOK_wellNamed _ Hok) as Hwn.
  destruct (Request ar) as [req|] eqn:Hr.
  2:{ split; [by left |]. intros _. exists NilPointerDereference.
      unfold mutate. by rewrite Hr. }
  destruct (decide (Kind req = "Ingress")) as [Hk|Hk].
  2:{ split.
      - intros _. right. exists req. split; [done | by left].
      - intros _. exists NilPointerDereference. by eapply mutate_not_ingress. }
  destruct (Object req) as [err|f] eqn:Ho.
  { split.
    - intros [p Hp]. unfold mutate in Hp. rewrite Hr, decide_True in Hp by done.
      unfold mbind, Go_bind in Hp.
      by rewrite Ho, json_Unmarshal_Ingress_error in Hp.
    - intros [? | (req' & Hr' & [? | (_ & f & entry & d & ? & _)])];
        [done | congruence | congruence]. }
  destruct (mutate_on_ingress order whsvr ar req f h Hr Hk Ho Hwn)
    as (md & h1 & Hname & Hann & _ & Hm).
  rewrite Hm. clear Hm.
  destruct (shouldMutate ignoredNamespaces (defaultAnnotations whsvr)
              (ingressNamespace f) (ingressName f) (default ∅ (ingressAnnotations f)))
    eqn:Hs.
  - apply not_false_iff_true in Hs. rewrite shouldMutate_false in Hs.
    destruct (firstMatch (ingressName f) (defaultAnnotations whsvr))
      as [entry|] eqn:Hfm; [| tauto].
    destruct (tableOK_firstMatch _ _ _ Hok Hfm) as (defaults & He & Hwt).
    assert (Hd : defaultAnnotationsForIngressName (defaultAnnotations whsvr) (Name md)
                 = Returns defaults).
    { rewrite defaultAnnotationsForIngressName_firstMatch by done.
      by rewrite Hname, Hfm, He. }
    destruct (ingressAnnotations f) as [a|] eqn:Ha.
    + destruct Hann as (l & Hl & _ & Hl1).
      rewrite Hl, (createPatch_merges _ _ _ _ _ _ _ Hd Hwt Hl1).
      split; [by intros [p Hp] |].
      intros [? | (req' & Hr' & [? | (_ & f' & e' & d' & Ho' & Ha' & _)])];
        [done | congruence | congruence].
    + rewrite Hann, (createPatch_nil_map _ _ _ _ _ Hd Hwt).
      destruct (decide (defaults = ∅)) as [Hempty|Hne].
      * split; [by intros [p Hp] |].
        intros [? | (req' & Hr' & [? | (_ & f' & e' & d' & Ho' & _ & _ & Hfm'
                                           & He' & Hne')])]; [done | congruence |].
        assert (f' = f) as -> by congruence.
        rewrite Hfm in Hfm'. injection Hfm' as <-.
        rewrite He in He'. injection He' as <-. done.
      * split; [| by eexists]. intros _. right. exists req. split; [done |].
        right. split; [done |]. exists f, entry, defaults.
        repeat split; try done. intros Hin. apply Hs. by left.
  - split; [by intros [p Hp] |].
    apply shouldMutate_false in Hs.
    intros [? | (req' & Hr' & [? | (_ & f' & e' & d' & Ho' & Ha' & Hns'
                                       & Hfm' & _)])]; [done | congruence |].
    assert (f' = f) as -> by congruence.
    destruct Hs as [Hn|[Hf|Hmut]]; [done | congruence |].
    rewrite Ha' in Hmut. cbn [default] in Hmut.
    destruct Hmut as (s & Hs' & _). by rewrite lookup_empty in Hs'.
Qed.

(** X10. Every response that [mutate] returns is one of three: the plain allow;
    an allow with a JSON patch that is a single "add" operation at
    /metadata/annotations; or a response that is not allowed and carries
    only a message. [mutate] never sets the UID. *)
Theorem mutate_response_shape (order : rangeOrder) (whsvr : WebhookServer)
    (ar : AdmissionReview) (h h' : heap) (resp : AdmissionResponse) :
  mutate order whsvr ar h = Returns (resp, h') →
  responseShape resp ∧ ResponseUID resp = "".
Proof.
  intros Hm. unfold mutate in Hm.
  destruct (Request ar) as [req|]; [| done].
  destruct (decide (Kind req = "Ingress")); [| done].
  unfold mbind at 1, Go_bind in Hm.
  destruct (Object req) as [err|f].
  - rewrite json_Unmarshal_Ingress_error in Hm. injection Hm as <- _.
    split; [| done]. right. right. by exists err.
  - destruct (json_Unmarshal_Ingress_fresh f h) as (md & h1 & Hu & _).
    rewrite Hu, mutateObject_unfold in Hm.
    destruct (mutationRequired h1 ignoredNamespaces (defaultAnnotations whsvr) (Some md))
      as [[|]|p]; [| | done].
    + destruct (createPatch order (Name md) (Annotations md)
                  (defaultAnnotations whsvr) h1) as [[[doc err] h2]|p] eqn:Hc; [| done].
      pose proof (createPatch_no_error _ _ _ _ _ _ _ _ Hc) as ->.
      injection Hm as <- _. split; [| done]. right. left.
      rewrite createPatch_unfold in Hc.
      destruct (defaultAnnotationsForIngressName (defaultAnnotations whsvr) (Name md))
        as [dflts|p]; [| done].
      destruct (assignAll (Annotations md) (order dflts) h1) as [[[] h3]|p]; [| done].
      injection Hc as <- _. by eexists.
    + injection Hm as <- _. split; [by left | done].
Qed.

End MutateCases.

(** ** serve *)

Section Serve.
Context `{Unicode}.

Lemma serve_wrong_content_type (order : rangeOrder) whsvr r body (h : heap) :
  Body r = Some body → ContentType r ≠ "application/json" →
  serve order whsvr r h
  = Returns (HttpError "invalid Content-Type, expect `application/json`"
               StatusUnsupportedMediaType, h).
Proof. intros Hb Hc. unfold serve. by rewrite Hb, decide_True. Qed.

(** X11. [serve] answers with a plain HTTP error exactly when the request has no
    body (400) or, having one, has a content type other than
    application/json (415): the body is checked first. In both cases
    nothing is decoded and the heap is as it was. *)
Theorem serve_http_errors (order : rangeOrder) (whsvr : WebhookServer)
    (r : httpRequest) (h : heap) :
  (Body r = None →
   serve order whsvr r h = Returns (HttpError "empty body" StatusBadRequest, h))
  ∧ (is_Some (Body r) → ContentType r ≠ "application/json" →
     serve order whsvr r h
     = Returns (HttpError "invalid Content-Type, expect `application/json`"
                  StatusUnsupportedMediaType, h))
  ∧ (∀ message code (h' : heap),
       serve order whsvr r h = Returns (HttpError message code, h') →
       (Body r = None ∨ ContentType r ≠ "application/json") ∧ h' = h).
Proof.
  split; [| split].
  - intros Hb. unfold serve. by rewrite Hb.
  - intros [body Hb] Hc. by eapply serve_wrong_content_type.
  - intros message code h' Hs.
    destruct (Body r) as [body|] eqn:Hb.
    + destruct (decide (ContentType r = "application/json")) as [Hc|Hc].
      * rewrite (serve_unfold _ _ _ _ _ Hb Hc) in Hs.
        destruct body as [err partial|ar]; [done |].
        destruct (decide (URLPath r = "/mutate")); [| done].
        by destruct (mutate order whsvr ar h) as [[resp h0]|p].
      * rewrite (serve_wrong_content_type _ _ _ _ _ Hb Hc) in Hs.
        injection Hs as _ _ <-. split; [by right | done].
    + unfold serve in Hs. rewrite Hb in Hs. injection Hs as _ _ <-.
      split; [by left | done].
Qed.

(** X12. Only the path /mutate leads to [mutate]. On any other path [serve]
    returns without a panic and without touching the heap, whatever the
    review; its reply is an HTTP error, or a review without the request.
    That review carries no response when the body was decoded; when the
    decoder rejected the body, its response is not allowed, carries the
    decoder's message and no patch, and has the UID of the request the
    decoder has left in the review, if any. *)
Theorem serve_other_path (order : rangeOrder) (whsvr : WebhookServer)
    (r : httpRequest) (h : heap) :
  URLPath r ≠ "/mutate" →
  ∃ reply, serve order whsvr r h = Returns (reply, h)
    ∧ match reply with
      | HttpError _ _ => Body r = None ∨ ContentType r ≠ "application/json"
      | ReviewWritten review =>
          Request review = None
          ∧ match Body r with
            | Some (Undecodable err partial) =>
                ∃ resp, Response review = Some resp
                        ∧ reportsError err resp
                        ∧ ResponseUID resp = match Request partial with
                                             | Some req => UID req
                                             | None => ""
                                             end
            | _ => Response review = None
            end
      end.
Proof.
  intros Hp. destruct (Body r) as [body|] eqn:Hb.
  - destruct (decide (ContentType r = "application/json")) as [Hc|Hc].
    + rewrite (serve_unfold _ _ _ _ _ Hb Hc).
      destruct body as [err partial|ar].
      * eexists. split; [reflexivity |]. split; [done |].
        eexists. split; [reflexivity |]. by destruct (Request partial).
      * rewrite decide_False by done. by eexists.
    + rewrite (serve_wrong_content_type _ _ _ _ _ Hb Hc).
      eexists. split; [done |]. by right.
  - unfold serve. rewrite Hb. eexists. split; [done |]. by left.
Qed.

(** X13. The review that [serve] writes for a decoded review never repeats the
    request; its response is the response of [mutate] with the UID of the
    request filled in, and nothing else changed. *)
Theorem serve_echoes_uid (order : rangeOrder) (whsvr : WebhookServer)
    (r : httpRequest) (ar : AdmissionReview) (req : AdmissionRequest)
    (review : AdmissionReview) (resp : AdmissionResponse) (h h' : heap) :
  Body r = Some (ReviewBytes ar) → Request ar = Some req →
  serve order whsvr r h = Returns (ReviewWritten review, h') →
  Response review = Some resp →
  Request review = None
  ∧ ResponseUID resp = UID req
  ∧ ∃ resp0, mutate order whsvr ar h = Returns (resp0, h')
             ∧ resp = withUID (UID req) resp0.
Proof.
  intros Hb Hr Hs Hresp.
  destruct (decide (ContentType r = "application/json")) as [Hc|Hc].
  - rewrite (serve_unfold _ _ _ _ _ Hb Hc) in Hs.
    destruct (decide (URLPath r = "/mutate")).
    + destruct (mutate order whsvr ar h) as [[resp0 h0]|p]; [| done].
      injection Hs as <- <-. cbn [Response] in Hresp. rewrite Hr in Hresp.
      injection Hresp as <-. split; [done |]. split; [done |]. by exists resp0.
    + injection Hs as <- _. done.
  - by rewrite (serve_wrong_content_type _ _ _ _ _ Hb Hc) in Hs.
Qed.

End Serve.

(** ** The further properties at the sample data *)

Lemma mutate_allows_without_patch_witness :
  ∃ h1, @mutate asciiOnly canonicalOrder sampleServer
          (sampleReview "Ingress" (IngressObject systemIngress)) ∅
        = Returns (allowResponse, h1).
Proof.
  apply (@mutate_allows_without_patch asciiOnly canonicalOrder sampleServer
           (sampleReview "Ingress" (IngressObject systemIngress))
           {| UID := "705ab4f5-6393-11e8-b7cc-42010a800002"; Kind := "Ingress";
              Operation := "CREATE"; Object := IngressObject systemIngress |}
           systemIngress ∅);
    [reflexivity | reflexivity | reflexivity | vm_compute; reflexivity |].
  left. apply list_elem_of_here.
Defined.

Lemma mutate_patches_with_policy_values_witness :
  ∃ merged h2,
    @mutate asciiOnly canonicalOrder sampleServer
      (sampleReview "Ingress" (IngressObject (sampleIngress (Some submittedAnnotations))))
      ∅
    = Returns (patchResponse (addAnnotations (JObject (JString <$> merged))), h2)
    ∧ merged !! "ingress.citrix.com/secure-port" = Some "4443"
    ∧ merged !! "kubernetes.io/ingress.class" = Some "class1".
Proof.
  destruct (@mutate_patches_with_policy_values asciiOnly canonicalOrder sampleServer
              (sampleReview "Ingress"
                 (IngressObject (sampleIngress (Some submittedAnnotations))))
              {| UID := "705ab4f5-6393-11e8-b7cc-42010a800002"; Kind := "Ingress";
                 Operation := "CREATE";
                 Object := IngressObject (sampleIngress (Some submittedAnnotations)) |}
              (sampleIngress (Some submittedAnnotations)) ∅ submittedAnnotations
              samplePolicy sampleDefaults)
    as (merged & h2 & Hm & Hpolicy & Hother & _);
    [reflexivity | reflexivity | reflexivity | reflexivity
    | vm_compute; reflexivity | apply default_not_ignored
    | vm_compute; reflexivity | vm_compute; reflexivity
    | apply sampleDefaults_wellTyped | |].
  - intros (status & Hs & _). vm_compute in Hs. discriminate.
  - exists merged, h2. split; [exact Hm |]. split.
    + apply Hpolicy. vm_compute. reflexivity.
    + rewrite Hother; vm_compute; reflexivity.
Defined.

Lemma mutate_panics_exactly_witness :
  ∃ p, @mutate asciiOnly canonicalOrder sampleServer requestlessReview ∅ = Panics p.
Proof.
  apply (@mutate_panics_exactly asciiOnly canonicalOrder sampleServer
           requestlessReview ∅); [vm_compute; reflexivity |].
  left. reflexivity.
Defined.

Lemma mutate_response_shape_witness :
  ∃ resp h',
    @mutate asciiOnly canonicalOrder sampleServer
      (sampleReview "Ingress" (IngressObject (sampleIngress (Some submittedAnnotations))))
      ∅ = Returns (resp, h')
    ∧ responseShape resp.
Proof.
  destruct (@mutate asciiOnly canonicalOrder sampleServer
              (sampleReview "Ingress"
                 (IngressObject (sampleIngress (Some submittedAnnotations)))) ∅)
    as [[resp h']|p] eqn:Hm.
  - exists resp, h'. split; [reflexivity |].
    apply (@mutate_response_shape asciiOnly canonicalOrder sampleServer _ _ _ _ Hm).
  - vm_compute in Hm. discriminate.
Defined.

Lemma serve_other_path_witness :
  ∃ review resp,
    @serve asciiOnly canonicalOrder sampleServer
      {| Body := Some (Undecodable "unknown field"
                         (sampleReview "Pod" (NotAnIngress "")));
         ContentType := "application/json"; URLPath := "/validate" |}
      sampleHeap = Returns (ReviewWritten review, sampleHeap)
    ∧ Response review = Some resp
    ∧ Allowed resp = false ∧ Result resp = Some "unknown field"
    ∧ ResponseUID resp = "705ab4f5-6393-11e8-b7cc-42010a800002".
Proof.
  destruct (@serve_other_path asciiOnly canonicalOrder sampleServer
              {| Body := Some (Undecodable "unknown field"
                                 (sampleReview "Pod" (NotAnIngress "")));
                 ContentType := "application/json"; URLPath := "/validate" |}
              sampleHeap) as (reply & Hs & Hshape); [discriminate |].
  destruct reply as [message code|review].
  - vm_compute in Hs. discriminate.
  - destruct Hshape as (_ & resp & Hresp & (Ha & Hr & _) & Hu).
    exists review, resp. repeat split; assumption.
Defined.

Lemma serve_echoes_uid_witness :
  ∃ review resp h',
    @serve asciiOnly canonicalOrder sampleServer
      (reviewRequest "/mutate"
         (sampleReview "Ingress" (IngressObject (sampleIngress (Some ∅))))) ∅
    = Returns (ReviewWritten review, h')
    ∧ Response review = Some resp
    ∧ ResponseUID resp = "705ab4f5-6393-11e8-b7cc-42010a800002".
Proof.
  destruct (@serve asciiOnly canonicalOrder sampleServer
              (reviewRequest "/mutate"
                 (sampleReview "Ingress" (IngressObject (sampleIngress (Some ∅))))) ∅)
    as [[[message code|review] h']|p] eqn:Hs;
    [vm_compute in Hs; discriminate | | vm_compute in Hs; discriminate].
  destruct (Response review) as [resp|] eqn:Hresp.
  - exists review, resp, h'. split; [reflexivity |]. split; [exact Hresp |].
    apply (@serve_echoes_uid asciiOnly canonicalOrder sampleServer
             (reviewRequest "/mutate"
                (sampleReview "Ingress" (IngressObject (sampleIngress (Some ∅)))))
             (sampleReview "Ingress" (IngressObject (sampleIngress (Some ∅))))
             {| UID := "705ab4f5-6393-11e8-b7cc-42010a800002"; Kind := "Ingress";
                Operation := "CREATE";
                Object := IngressObject (sampleIngress (Some ∅)) |}
             review resp ∅ h' eq_refl eq_refl Hs Hresp).
  - vm_compute in Hs. injection Hs as <- _. discriminate.
Defined.

(** ** Two edges of the policy table *)

Section TableEdges.
Context `{Unicode}.

(** X14. One entry whose "ingressName" is not a string stops every request that
    reaches it: when the entries before it have string names and do not
    target the object, [mutationRequired] panics on the type assertion
    whatever the namespace and the annotations of the object (also in an
    ignored namespace, also with the "mutated" status), and so does
    [createPatch]. *)
Theorem ill_named_entry_panics (order : rangeOrder) (ignoredList : list string)
    (h : heap) (md : ObjectMeta) (r : mapref)
    (before after : list (gmap string json)) (entry : gmap string json) (v : json) :
  wellNamed before →
  Forall (λ e, targets (Name md) e = false) before →
  entry !! "ingressName" = Some v → isString v = false →
  mutationRequired h ignoredList (before ++ entry :: after) (Some md)
  = Panics InterfaceConversion
  ∧ createPatch order (Name md) r (before ++ entry :: after) h
    = Panics InterfaceConversion.
Proof.
  intros Hwn Hno He Hv.
  assert (Hl : ingressFound (before ++ entry :: after) (Name md)
               = Panics InterfaceConversion
               ∧ defaultAnnotationsForIngressName (before ++ entry :: after) (Name md)
                 = Panics InterfaceConversion).
  { induction before as [|e before IH].
    - cbn. rewrite He. by destruct v.
    - apply wellNamed_cons in Hwn as [Hn Hwn].
      apply Forall_cons in Hno as [Ht Hno]. rewrite <- app_comm_cons.
      destruct (lookups_skip_other e ((before ++ entry :: after)%list) (Name md) Hn Ht)
        as [-> ->].
      by apply IH. }
  destruct Hl as [Hf Hd]. split.
  - unfold mutationRequired. rewrite admissionRequired_Some.
    cbn [mbind run_bind deref]. by rewrite Hf.
  - by rewrite createPatch_unfold, Hd.
Qed.

(** X15. An Ingress without annotations whose matching entry has an empty set of
    defaults is not let through unchanged and does not panic: [mutate]
    answers with a patch whose single "add" operation sets
    /metadata/annotations to null. *)
Theorem mutate_absent_annotations_empty_defaults (order : rangeOrder)
    (whsvr : WebhookServer) (ar : AdmissionReview) (req : AdmissionRequest)
    (f : ingressFields) (h : heap) (entry : gmap string json) :
  Request ar = Some req → Kind req = "Ingress" → Object req = IngressObject f →
  ingressAnnotations f = None →
  wellNamed (defaultAnnotations whsvr) →
  ingressNamespace f ∉ ignoredNamespaces →
  firstMatch (ingressName f) (defaultAnnotations whsvr) = Some entry →
  entry !! "defaultAnnotations" = Some (JObject ∅) →
  ∃ h1 : heap,
    mutate order whsvr ar h = Returns (patchResponse (addAnnotations JNull), h1).
Proof.
  intros Hr Hk Ho Ha Hwn Hns Hfm He.
  destruct (mutate_on_ingress order whsvr ar req f h Hr Hk Ho Hwn)
    as (md & h1 & Hname & Hann & _ & Hm).
  rewrite Ha in Hann, Hm.
  assert (Hs : shouldMutate ignoredNamespaces (defaultAnnotations whsvr)
                 (ingressNamespace f) (ingressName f) (default ∅ None) = true).
  { apply not_false_iff_true. rewrite shouldMutate_false.
    intros [Hn|[Hf|(s & Hmut & _)]]; [done | congruence |].
    cbn [default] in Hmut. by rewrite lookup_empty in Hmut. }
  assert (Hd : defaultAnnotationsForIngressName (defaultAnnotations whsvr) (Name md)
               = Returns ∅).
  { rewrite defaultAnnotationsForIngressName_firstMatch by done.
    by rewrite Hname, Hfm, He. }
  rewrite Hs, Hann in Hm.
  rewrite (createPatch_nil_map _ _ _ _ _ Hd (map_Forall_empty _)) in Hm.
  rewrite decide_True in Hm by done. by exists h1.
Qed.

End TableEdges.

Lemma ill_named_entry_panics_witness :
  @mutationRequired asciiOnly mutatedHeap ignoredNamespaces
    ([otherPolicy] ++ numericNamePolicy :: [samplePolicy])
    (Some {| Name := "test-ingress"; Namespace := "kube-system"; Labels := None;
             Annotations := Some 1%positive |})
  = Panics InterfaceConversion.
Proof.
  apply (@ill_named_entry_panics asciiOnly canonicalOrder ignoredNamespaces mutatedHeap
           {| Name := "test-ingress"; Namespace := "kube-system"; Labels := None;
              Annotations := Some 1%positive |}
           None [otherPolicy] [samplePolicy] numericNamePolicy (JNumber "5")).
  - vm_compute. reflexivity.
  - repeat constructor; vm_compute; reflexivity.
  - vm_compute. reflexivity.
  - reflexivity.
Defined.

Lemma mutate_absent_annotations_empty_defaults_witness :
  ∃ h1,
    @mutate asciiOnly canonicalOrder {| defaultAnnotations := [emptyDefaultsPolicy] |}
      (sampleReview "Ingress" (IngressObject (sampleIngress None))) ∅
    = Returns (patchResponse (addAnnotations JNull), h1).
Proof.
  apply (@mutate_absent_annotations_empty_defaults asciiOnly canonicalOrder
           {| defaultAnnotations := [emptyDefaultsPolicy] |}
           (sampleReview "Ingress" (IngressObject (sampleIngress None)))
           {| UID := "705ab4f5-6393-11e8-b7cc-42010a800002"; Kind := "Ingress";
              Operation := "CREATE"; Object := IngressObject (sampleIngress None) |}
           (sampleIngress None) ∅ emptyDefaultsPolicy);
    [reflexivity | reflexivity | reflexivity | reflexivity
    | vm_compute; reflexivity | apply default_not_ignored
    | vm_compute; reflexivity | vm_compute; reflexivity].
Defined.
